(** * Task Store Service (server.js): model and verified properties

    The program is a single Express application holding an array of task
    objects ([tasks]) and a counter ([nextId]) in process memory.  Each
    route handler is modelled as a computation over that store which either
    completes with a JSON response or throws a [TypeError]; Express turns a
    thrown error into the 500 response of the error middleware, and the
    mutations made before the throw stay in the store.

    Conventions.
    - A JavaScript string is the list of its UTF-16 code units.
    - A JSON or query-string value is a [jsval]; the contents of arrays and
      objects are never inspected by the program and are not represented.
    - Numbers that the program computes with ([id], [nextId], the result of
      [parseInt]) are integers; they are modelled as [Z], which agrees with
      IEEE doubles on the safe range |n| <= 2^53 - 1.  Beyond that range
      [parseInt] rounds, to values no issued id can have.
    - [toLowerCase] maps the code units A-Z to a-z and leaves the others in
      place.  On the strings that decide this program (the six enumerated
      ASCII words) this coincides with the Unicode mapping: the only
      non-ASCII characters whose lower case contains an ASCII letter are
      U+212A (k) and U+0130 (i followed by U+0307), and neither can
      produce one of the words.
    - [new Date().toISOString()] is an input: every request carries the
      clock readings its handler makes. *)

From Stdlib Require Import ZArith NArith List String Ascii Bool Lia Sorted.
From stdpp Require Import prelude sorting.
Import ListNotations.

Local Open Scope Z_scope.

(** ** JavaScript strings *)

Abbreviation jsstring := (list N) (only parsing).

(** An ASCII literal of the source as a list of code units. *)
Definition lit (s : string) : jsstring :=
  map N_of_ascii (list_ascii_of_string s).

(** WhiteSpace and LineTerminator code points of ECMAScript, the set
    stripped by [String.prototype.trim] and skipped by [parseInt]. *)
Definition isWhiteSpace (c : N) : bool :=
  match c with
  | 9 | 10 | 11 | 12 | 13 | 32 | 160 | 5760
  | 8192 | 8193 | 8194 | 8195 | 8196 | 8197 | 8198 | 8199 | 8200 | 8201 | 8202
  | 8232 | 8233 | 8239 | 8287 | 12288 | 65279 => true
  | _ => false
  end%N.

Fixpoint trimStart (s : jsstring) : jsstring :=
  match s with
  | c :: s' => if isWhiteSpace c then trimStart s' else s
  | [] => []
  end.

Definition trimEnd (s : jsstring) : jsstring :=
  reverse (trimStart (reverse s)).

(** [String.prototype.trim] *)
Definition trim (s : jsstring) : jsstring := trimEnd (trimStart s).

Definition lower_unit (c : N) : N :=
  if ((65 <=? c) && (c <=? 90))%N then (c + 32)%N else c.

(** [String.prototype.toLowerCase] *)
Definition toLowerCase (s : jsstring) : jsstring := map lower_unit s.

(** [Array.prototype.includes] on an array of strings *)
Definition includes (l : list jsstring) (x : jsstring) : bool :=
  bool_decide (x ∈ l).

(** ** parseInt (radix argument omitted) *)

Definition digit_value (c : N) : option Z :=
  if ((48 <=? c) && (c <=? 57))%N then Some (Z.of_N c - 48)
  else if ((97 <=? c) && (c <=? 122))%N then Some (Z.of_N c - 87)
  else if ((65 <=? c) && (c <=? 90))%N then Some (Z.of_N c - 55)
  else None.

Definition radix_digit (R : Z) (c : N) : option Z :=
  match digit_value c with
  | Some d => if d <? R then Some d else None
  | None => None
  end.

(** The longest prefix of radix-R digits, as digit values. *)
Fixpoint take_digits (R : Z) (s : jsstring) : list Z :=
  match s with
  | c :: s' =>
      match radix_digit R c with
      | Some d => d :: take_digits R s'
      | None => []
      end
  | [] => []
  end.

Definition math_int (R : Z) (ds : list Z) : Z :=
  fold_left (fun acc d => acc * R + d) ds 0.

(** [None] stands for NaN. *)
Definition parseInt (input : jsstring) : option Z :=
  let S0 := trimStart input in
  let '(sign, S1) :=
    match S0 with
    | c :: r => if (c =? 45)%N then (-1, r)
                else if (c =? 43)%N then (1, r) else (1, S0)
    | [] => (1, [])
    end in
  let '(R, S2) :=
    match S1 with
    | 48%N :: x :: r =>
        if ((x =? 120) || (x =? 88))%N then (16, r) else (10, S1)
    | _ => (10, S1)
    end in
  match take_digits R S2 with
  | [] => None
  | ds => Some (sign * math_int R ds)
  end.

(** [a === b] for a number [a] and the result [b] of [parseInt]:
    NaN is equal to nothing. *)
Definition strict_eq_num (a : Z) (b : option Z) : bool :=
  match b with
  | Some n => a =? n
  | None => false
  end.

(** ** JSON and query-string values *)

Inductive jsval :=
| JUndefined
| JNull
| JBool (b : bool)
| JNum (n : Z)
| JStr (s : jsstring)
| JArray
| JObject.

(** ToBoolean *)
Definition truthy (v : jsval) : bool :=
  match v with
  | JUndefined | JNull => false
  | JBool b => b
  | JNum n => negb (n =? 0)
  | JStr s => match s with [] => false | _ => true end
  | JArray | JObject => true
  end.

(** ** The store *)

Abbreviation timestamp := (list N) (only parsing).

Record task := Task {
  id : Z;
  title : jsstring;
  description : jsstring;
  status : jsstring;
  priority : jsstring;
  createdAt : timestamp;
  updatedAt : timestamp
}.

Record store := Store {
  tasks : list task;
  nextId : Z
}.

Definition set_title (v : jsstring) (t : task) : task :=
  Task (id t) v (description t) (status t) (priority t) (createdAt t) (updatedAt t).
Definition set_description (v : jsstring) (t : task) : task :=
  Task (id t) (title t) v (status t) (priority t) (createdAt t) (updatedAt t).
Definition set_status (v : jsstring) (t : task) : task :=
  Task (id t) (title t) (description t) v (priority t) (createdAt t) (updatedAt t).
Definition set_priority (v : jsstring) (t : task) : task :=
  Task (id t) (title t) (description t) (status t) v (createdAt t) (updatedAt t).
Definition set_updatedAt (v : timestamp) (t : task) : task :=
  Task (id t) (title t) (description t) (status t) (priority t) (createdAt t) v.

(** The module-level initialisation: two seed tasks and [nextId = 3].
    The four arguments are the clock readings made while the array
    literal is evaluated. *)
Definition initial_store (c1 u1 c2 u2 : timestamp) : store :=
  Store
    [ Task 1 (lit "Learn Node.js") (lit "Complete Node.js tutorial")
        (lit "pending") (lit "high") c1 u1;
      Task 2 (lit "Build API") (lit "Create REST API for task management")
        (lit "in-progress") (lit "medium") c2 u2 ]
    3.

(** ** Handler computations

    A handler body runs against the store and either completes with a value
    or throws (every throw in this program is a [TypeError] from calling a
    string method on a value that has none).  The store reached at the
    point of the throw is kept. *)

Inductive completion (A : Type) :=
| Normal (a : A)
| Throw.
Arguments Normal {A} a.
Arguments Throw {A}.

Definition js (A : Type) : Type := store -> completion A * store.

#[global] Instance js_ret : MRet js := fun A a s => (Normal a, s).
#[global] Instance js_bind : MBind js := fun A B k m s =>
  match m s with
  | (Normal a, s') => k a s'
  | (Throw, s') => (Throw, s')
  end.

Definition throw {A} : js A := fun s => (Throw, s).
Definition read_tasks : js (list task) := fun s => (Normal (tasks s), s).
Definition write_tasks (l : list task) : js unit :=
  fun s => (Normal tt, Store l (nextId s)).
(** [nextId++] *)
Definition post_increment_nextId : js Z :=
  fun s => (Normal (nextId s), Store (tasks s) (nextId s + 1)).
(** [task.f = v] for the task object held at index [i] of the array *)
Definition assign (i : nat) (f : task -> task) : js unit :=
  fun s => (Normal tt, Store (alter f i (tasks s)) (nextId s)).

(** Reading the task object held at index [i].  Handlers only use it with
    the index [find] returned, which stays in range: no handler removes an
    element between the lookup and the read. *)
Definition deref (i : nat) : js task :=
  fun s => match tasks s !! i with
           | Some t => (Normal t, s)
           | None => (Throw, s)
           end.

(** [v.trim()] and [v.toLowerCase()] on a value of unknown type *)
Definition call_trim (v : jsval) : js jsstring :=
  match v with
  | JStr s => mret (trim s)
  | _ => throw
  end.
Definition call_toLowerCase (v : jsval) : js jsstring :=
  match v with
  | JStr s => mret (toLowerCase s)
  | _ => throw
  end.

(** [arr.filter(cb)] with a callback that may throw: the callback runs on
    the elements in order, and not at all on an empty array. *)
Fixpoint filter_cb (cb : task -> js bool) (l : list task) : js (list task) :=
  match l with
  | [] => mret []
  | t :: l' =>
      keep ← cb t;
      rest ← filter_cb cb l';
      mret (if keep : bool then t :: rest else rest)
  end.

(** ** Requests and responses *)

Module Query.
Record t := Make { status : jsval; priority : jsval }.
End Query.

Module Body.
Record t := Make {
  title : jsval;
  description : jsval;
  status : jsval;
  priority : jsval
}.
End Body.

Record priority_stats := PriorityStats {
  high : nat;
  medium : nat;
  low : nat
}.

Record stats := Stats {
  total : nat;
  pending : nat;
  inProgress : nat;
  completed : nat;
  byPriority : priority_stats
}.

Inductive payload :=
| NoData
| TaskData (t : task)
| TasksData (l : list task)
| StatsData (s : stats).

(** The JSON document [{success, message?, count?, data?}] together with
    the HTTP status code it is sent with. *)
Record response := Response {
  code : nat;
  success : bool;
  message : option string;
  count : option nat;
  data : payload
}.

Definition not_found : response :=
  Response 404 false (Some "Task not found"%string) None NoData.
Definition bad_request (msg : string) : response :=
  Response 400 false (Some msg) None NoData.
Definition internal_error : response :=
  Response 500 false (Some "Something went wrong!"%string) None NoData.

(** ** Route handlers *)

(** [findTaskById]: the first task whose id is [parseInt(id)], with its
    position in the array (the handle through which PUT mutates it). *)
Definition findTaskById (l : list task) (id_param : jsstring) : option (nat * task) :=
  list_find (fun t => strict_eq_num (id t) (parseInt id_param) = true) l.

(** GET /api/tasks *)
Definition get_tasks (q : Query.t) : js response :=
  all ← read_tasks;
  by_status ←
    (if truthy (Query.status q)
     then filter_cb (fun t =>
            wanted ← call_toLowerCase (Query.status q);
            mret (bool_decide (toLowerCase (status t) = wanted))) all
     else mret all);
  filteredTasks ←
    (if truthy (Query.priority q)
     then filter_cb (fun t =>
            wanted ← call_toLowerCase (Query.priority q);
            mret (bool_decide (toLowerCase (priority t) = wanted))) by_status
     else mret by_status);
  mret (Response 200 true None (Some (length filteredTasks)) (TasksData filteredTasks)).

(** GET /api/tasks/:id *)
Definition get_task (id_param : jsstring) : js response :=
  all ← read_tasks;
  match findTaskById all id_param with
  | None => mret not_found
  | Some (_, t) => mret (Response 200 true None None (TaskData t))
  end.

(** POST /api/tasks *)
Definition post_tasks (b : Body.t) (now1 now2 : timestamp) : js response :=
  let priority0 :=
    match Body.priority b with
    | JUndefined => JStr (lit "medium")
    | v => v
    end in
  if negb (truthy (Body.title b)) || negb (truthy (Body.description b))
  then mret (bad_request "Title and description are required")
  else
    p ← call_toLowerCase priority0;
    if negb (includes [lit "low"; lit "medium"; lit "high"] p)
    then mret (bad_request "Priority must be: low, medium, or high")
    else
      new_id ← post_increment_nextId;
      new_title ← call_trim (Body.title b);
      new_description ← call_trim (Body.description b);
      new_priority ← call_toLowerCase priority0;
      let newTask :=
        Task new_id new_title new_description (lit "pending") new_priority now1 now2 in
      all ← read_tasks;
      write_tasks (all ++ [newTask]);;
      mret (Response 201 true (Some "Task created successfully"%string) None
              (TaskData newTask)).

(** PUT /api/tasks/:id *)
Definition put_task (id_param : jsstring) (b : Body.t) (now : timestamp) : js response :=
  all ← read_tasks;
  match findTaskById all id_param with
  | None => mret not_found
  | Some (i, _) =>
      bad_status ←
        (if truthy (Body.status b)
         then s ← call_toLowerCase (Body.status b);
              mret (negb (includes [lit "pending"; lit "in-progress"; lit "completed"] s))
         else mret false);
      if bad_status : bool
      then mret (bad_request "Status must be: pending, in-progress, or completed")
      else
        bad_priority ←
          (if truthy (Body.priority b)
           then p ← call_toLowerCase (Body.priority b);
                mret (negb (includes [lit "low"; lit "medium"; lit "high"] p))
           else mret false);
        if bad_priority : bool
        then mret (bad_request "Priority must be: low, medium, or high")
        else
          (if truthy (Body.title b)
           then v ← call_trim (Body.title b); assign i (set_title v)
           else mret tt);;
          (if truthy (Body.description b)
           then v ← call_trim (Body.description b); assign i (set_description v)
           else mret tt);;
          (if truthy (Body.status b)
           then v ← call_toLowerCase (Body.status b); assign i (set_status v)
           else mret tt);;
          (if truthy (Body.priority b)
           then v ← call_toLowerCase (Body.priority b); assign i (set_priority v)
           else mret tt);;
          assign i (set_updatedAt now);;
          t ← deref i;
          mret (Response 200 true (Some "Task updated successfully"%string) None
                  (TaskData t))
  end.

(** DELETE /api/tasks/:id *)
Definition delete_task (id_param : jsstring) : js response :=
  all ← read_tasks;
  match findTaskById all id_param with
  | None => mret not_found
  | Some (taskIndex, deletedTask) =>
      write_tasks (delete taskIndex all);;
      mret (Response 200 true (Some "Task deleted successfully"%string) None
              (TaskData deletedTask))
  end.

(** GET /api/stats *)
Definition count_where (f : task -> jsstring) (word : string) (l : list task) : nat :=
  length (filter (fun t => f t = lit word) l).

Definition get_stats : js response :=
  all ← read_tasks;
  mret (Response 200 true None None
          (StatsData
             (Stats (length all)
                (count_where status "pending" all)
                (count_where status "in-progress" all)
                (count_where status "completed" all)
                (PriorityStats
                   (count_where priority "high" all)
                   (count_where priority "medium" all)
                   (count_where priority "low" all))))).

(** ** The application *)

Inductive request :=
| GET_tasks (q : Query.t)
| GET_task (id_param : jsstring)
| POST_tasks (b : Body.t) (now1 now2 : timestamp)
| PUT_task (id_param : jsstring) (b : Body.t) (now : timestamp)
| DELETE_task (id_param : jsstring)
| GET_stats.

Definition handler (r : request) : js response :=
  match r with
  | GET_tasks q => get_tasks q
  | GET_task i => get_task i
  | POST_tasks b now1 now2 => post_tasks b now1 now2
  | PUT_task i b now => put_task i b now
  | DELETE_task i => delete_task i
  | GET_stats => get_stats
  end.

(** One request through Express: a handler that throws is answered by the
    error-handling middleware. *)
Definition serve (r : request) (s : store) : response * store :=
  match handler r s with
  | (Normal res, s') => (res, s')
  | (Throw, s') => (internal_error, s')
  end.

(** Requests are served one at a time, each to completion. *)
Fixpoint run (rs : list request) (s : store) : list response * store :=
  match rs with
  | [] => ([], s)
  | r :: rs' =>
      let '(res, s1) := serve r s in
      let '(out, s2) := run rs' s1 in
      (res :: out, s2)
  end.

(** Store states the running server can be in. *)
Inductive reachable : store -> Prop :=
| reachable_init c1 u1 c2 u2 : reachable (initial_store c1 u1 c2 u2)
| reachable_serve r s : reachable s -> reachable (serve r s).2.

(** The spec's error kinds, read off a response. *)
Definition is_NotFound (res : response) : Prop :=
  code res = 404%nat /\ message res = Some "Task not found"%string.
Definition is_ValidationError (res : response) : Prop := code res = 400%nat.
Definition is_InternalError (res : response) : Prop := code res = 500%nat.

(** The ids handed out by the Creates of a run, in order. *)
Definition issued_id (res : response) : option Z :=
  match code res, data res with
  | 201%nat, TaskData t => Some (id t)
  | _, _ => None
  end.
Definition issued_ids (out : list response) : list Z := omap issued_id out.

(** Case-insensitive comparison as the program performs it. *)
Definition ci_equal (a b : jsstring) : Prop := toLowerCase a = toLowerCase b.
Definition ci_member (a : jsstring) (words : list string) : Prop :=
  Exists (fun w => ci_equal a (lit w)) words.

#[global] Instance ci_equal_dec a b : Decision (ci_equal a b).
Proof. unfold ci_equal. apply _. Defined.
#[global] Instance ci_member_dec a words : Decision (ci_member a words).
Proof. unfold ci_member. apply _. Defined.

(** ** Vocabulary of the properties *)

(** [r] neither begins nor ends with white space. *)
Definition trimmed (r : jsstring) : Prop :=
  (forall c, head r = Some c -> isWhiteSpace c = false) /\
  (forall c, last r = Some c -> isWhiteSpace c = false).

(** [r] is [s] without its leading and trailing white space. *)
Definition is_trim_of (s r : jsstring) : Prop :=
  trimmed r /\
  exists pre post, s = pre ++ r ++ post /\
    Forall (fun c => isWhiteSpace c = true) pre /\
    Forall (fun c => isWhiteSpace c = true) post.

(** The enumerated fields of a task hold legal values. *)
Definition enums_ok (t : task) : Prop :=
  status t ∈ [lit "pending"; lit "in-progress"; lit "completed"] /\
  priority t ∈ [lit "low"; lit "medium"; lit "high"].

(** Field assignments a PUT can make: the id stays, and legal enumerated
    values stay legal. *)
Definition good (g : task -> task) : Prop :=
  (forall t, id (g t) = id t) /\ (forall t, enums_ok t -> enums_ok (g t)).

(** What one request can do to the store. *)
Inductive effect (s : store) : store -> Prop :=
| effect_none : effect s s
| effect_bump : effect s (Store (tasks s) (nextId s + 1))
| effect_push t :
    id t = nextId s -> enums_ok t ->
    effect s (Store (tasks s ++ [t]) (nextId s + 1))
| effect_alter i g :
    good g -> effect s (Store (alter g i (tasks s)) (nextId s))
| effect_delete i : effect s (Store (delete i (tasks s)) (nextId s)).

(** Every way PUT /api/tasks/:id can end once the task is found, at
    position [i] with contents [t]. *)
Inductive put_outcome (s : store) (i : nat) (t : task) (now : timestamp) :
  completion response * store -> Prop :=
| put_invalid msg : put_outcome s i t now (Normal (bad_request msg), s)
| put_throws_early : put_outcome s i t now (Throw, s)
| put_throws_late g :
    good g -> put_outcome s i t now (Throw, Store (alter g i (tasks s)) (nextId s))
| put_ok g :
    good g ->
    put_outcome s i t now
      (Normal (Response 200 true (Some "Task updated successfully"%string) None
                 (TaskData (set_updatedAt now (g t)))),
       Store (alter (set_updatedAt now ∘ g) i (tasks s)) (nextId s)).

(** Every way POST /api/tasks can end. *)
Inductive post_outcome (s : store) : completion response * store -> Prop :=
| post_invalid msg : post_outcome s (Normal (bad_request msg), s)
| post_throws_early : post_outcome s (Throw, s)
| post_throws_late : post_outcome s (Throw, Store (tasks s) (nextId s + 1))
| post_ok t :
    id t = nextId s -> enums_ok t ->
    post_outcome s
      (Normal (Response 201 true (Some "Task created successfully"%string) None
                 (TaskData t)),
       Store (tasks s ++ [t]) (nextId s + 1)).

(** Computations that leave the store alone, and what a computation
    returns when it completes. *)
Definition read_only {A} (m : js A) : Prop := forall s, (m s).2 = s.
Definition returns {A} (P : A -> Prop) (m : js A) : Prop :=
  forall s a, (m s).1 = Normal a -> P a.

(** The store invariant: ids increase along the collection and lie below
    the counter, the counter is at least 3, enumerated fields are legal. *)
Definition wf (s : store) : Prop :=
  StronglySorted Z.lt (id <$> tasks s) /\
  Forall (fun t => id t < nextId s) (tasks s) /\
  3 <= nextId s /\
  Forall enums_ok (tasks s).

(** The priority a request asks for: the lower-cased string, or the
    default when the field is omitted. *)
Definition requested_priority (v : jsval) : jsstring :=
  match v with
  | JStr p => toLowerCase p
  | _ => lit "medium"
  end.

Definition is_decimal_digit (c : N) : bool := ((48 <=? c) && (c <=? 57))%N.

Definition strip_sign (s : jsstring) : jsstring :=
  match s with
  | c :: r => if ((c =? 45) || (c =? 43))%N then r else s
  | [] => []
  end.

(** The characters that occur in a written number: decimal digits, a
    sign, the decimal point, the exponent and hexadecimal markers and the
    hexadecimal digits. *)
Definition numeral_char (c : N) : bool :=
  is_decimal_digit c ||
  match c with
  | 43 | 45 | 46 | 69 | 101 | 88 | 120 => true
  | _ => ((65 <=? c) && (c <=? 70)) || ((97 <=? c) && (c <=? 102))
  end%N.

(** A numeric identifier in the spec's sense, read generously: a non-empty
    text made of numeral characters only.  Whatever one counts as a number,
    a text with another character in it is not one. *)
Definition numeric_identifier (idp : jsstring) : bool :=
  match idp with
  | [] => false
  | _ => forallb numeral_char idp
  end.

(** What [parseInt] needs in order to produce a number at all: after
    leading white space and an optional sign, the text starts with a
    decimal digit. *)
Definition has_integer_prefix (idp : jsstring) : bool :=
  match strip_sign (trimStart idp) with
  | c :: _ => is_decimal_digit c
  | [] => false
  end.

(** A body field that is absent or the empty string. *)
Definition not_supplied (v : jsval) : Prop := v = JUndefined \/ v = JStr [].

(** The id [n] has been issued and no task carries it. *)
Definition gone (n : Z) (s : store) : Prop :=
  n < nextId s /\ n ∉ id <$> tasks s.

(** A query parameter that is absent or a single string (not the array or
    object that repeated or bracketed keys produce). *)
Definition text_or_absent (v : jsval) : Prop :=
  v = JUndefined \/ exists w, v = JStr w.

(** A task field passes a filter parameter when the parameter is a
    non-empty string equal to it up to case, or when the parameter is
    absent or empty and therefore not applied. *)
Definition passes (v : jsval) (field : jsstring) : Prop :=
  match v with
  | JStr (c :: w) => ci_equal field (c :: w)
  | _ => True
  end.

#[global] Instance passes_dec v field : Decision (passes v field).
Proof. destruct v as [| | | |[|c w]| |]; simpl; apply _. Defined.

(** ** The routes outside the task API

    Which route Express selects is taken as given: one of the six task
    routes, GET /health, or none of them (any other method or path falls
    through to the catch-all). *)

Inductive endpoint :=
| Api (r : request)
| Health (now : timestamp)
| NoRoute.

(** A JSON document sent back: the common fields and the [timestamp]
    field that only the health check sets. *)
Record reply := Reply {
  reply_body : response;
  reply_timestamp : option (list N)
}.

Definition route_not_found : response :=
  Response 404 false (Some "Route not found"%string) None NoData.

(** The Express application [app] (named [express] here, [app] being list
    concatenation). *)
Definition express (e : endpoint) (s : store) : reply * store :=
  match e with
  | Api r => let '(res, s') := serve r s in (Reply res None, s')
  | Health now =>
      (Reply (Response 200 true (Some "API is running!"%string) None NoData)
             (Some now), s)
  | NoRoute => (Reply route_not_found None, s)
  end.

(** ** Further vocabulary *)

(** What PUT does with one body field: a non-empty string is normalised
    and stored, anything falsy leaves the task alone. *)
Definition apply_field (v : jsval) (norm : jsstring -> jsstring)
    (set : jsstring -> task -> task) (t : task) : task :=
  match v with
  | JStr (c :: w) => set (norm (c :: w)) t
  | _ => t
  end.

(** The record a successful PUT with body [b] at time [now] makes of [t]. *)
Definition updated (b : Body.t) (now : timestamp) (t : task) : task :=
  set_updatedAt now
    (apply_field (Body.priority b) toLowerCase set_priority
       (apply_field (Body.status b) toLowerCase set_status
          (apply_field (Body.description b) trim set_description
             (apply_field (Body.title b) trim set_title t)))).

(** The value a field has after a PUT: the normalised request value when
    that is a non-empty string, the old value otherwise. *)
Definition chosen (v : jsval) (norm : jsstring -> jsstring) (old : jsstring)
    : jsstring :=
  match v with
  | JStr (c :: w) => norm (c :: w)
  | _ => old
  end.

(** A body field PUT can digest: falsy, or a string. *)
Definition falsy_or_text (v : jsval) : Prop :=
  truthy v = false \/ exists w, v = JStr w.

(** An enumerated body field PUT accepts: falsy, or a string that is legal
    up to case. *)
Definition falsy_or_legal (v : jsval) (words : list string) : Prop :=
  truthy v = false \/ exists w, v = JStr w /\ ci_member w words.

(** A truthy value that is not a string: calling [trim] on it throws. *)
Definition truthy_non_string (v : jsval) : Prop :=
  truthy v = true /\ forall w, v <> JStr w.

(** The decimal numeral of a non-negative integer, as JSON.stringify
    writes an id into a response. *)
Fixpoint decimal_digits (fuel : nat) (n : Z) (acc : jsstring) : jsstring :=
  match fuel with
  | O => acc
  | S fuel' =>
      let acc' := Z.to_N (48 + n mod 10) :: acc in
      if n <? 10 then acc' else decimal_digits fuel' (n / 10) acc'
  end.

Definition to_decimal (n : Z) : jsstring :=
  decimal_digits (S (Z.to_nat n)) n [].

(** The legal words are stored in lower case. *)
Definition legal_status (w : jsstring) : Prop :=
  w = lit "pending" \/ w = lit "in-progress" \/ w = lit "completed".
Definition legal_priority (w : jsstring) : Prop :=
  w = lit "low" \/ w = lit "medium" \/ w = lit "high".

(** What identifies a task for good: its id and its creation time. *)
Definition identity (t : task) : Z * list N := (id t, createdAt t).

(** The statistics GET /api/stats would report in a given store. *)
Definition reported_stats (s : store) : option stats :=
  match data (serve GET_stats s).1 with
  | StatsData st => Some st
  | _ => None
  end.

(** * Properties *)

(** ** Strings *)

Lemma trimStart_split (s : jsstring) :
  exists pre, s = pre ++ trimStart s /\
    Forall (fun c => isWhiteSpace c = true) pre /\
    (forall c, head (trimStart s) = Some c -> isWhiteSpace c = false).
Proof.
  induction s as [|c s IH]; simpl.
  - exists []. split; [done|]. split; [constructor | discriminate].
  - destruct (isWhiteSpace c) eqn:Hc.
    + destruct IH as (pre & Heq & Hpre & Hhd).
      exists (c :: pre). split; [simpl; congruence|].
      split; [by constructor | done].
    + exists []. split; [done|]. split; [constructor|].
      simpl. intros c' [= <-]. done.
Qed.

Lemma trim_is_trim_of (s : jsstring) : is_trim_of s (trim s).
Proof.
  unfold trim, trimEnd.
  destruct (trimStart_split s) as (pre & Hs & Hpre & Hhd).
  destruct (trimStart_split (reverse (trimStart s))) as (post & Hr & Hpost & Hlast).
  set (m := trimStart (reverse (trimStart s))) in *.
  assert (Hmid : trimStart s = reverse m ++ reverse post).
  { rewrite <- reverse_app, <- Hr. by rewrite reverse_involutive. }
  split; [split|].
  - intros c Hc. apply Hhd. rewrite Hmid.
    destruct (reverse m) as [|x r]; [done|]. simpl in *. done.
  - intros c Hc. apply Hlast. rewrite last_reverse in Hc. exact Hc.
  - exists pre, (reverse post). split; [by rewrite <- Hmid|].
    split; [done|]. rewrite Forall_forall in Hpost |- *.
    intros c Hc. apply Hpost. revert Hc. apply elem_of_reverse.
Qed.

(** ** Reasoning about handler computations *)

(** Unfolds the monad operations so that a handler applied to a store
    reduces by computation. *)
Ltac js_unfold :=
  unfold mbind, mret, js_bind, js_ret, throw, read_tasks, write_tasks,
    post_increment_nextId, assign, deref in *.
Ltac js_simpl := js_unfold; cbn beta iota zeta delta [tasks nextId fst snd] in *.

(** Every value is falsy, a non-empty string, or a truthy value without
    string methods. *)
Lemma jsval_cases (v : jsval) :
  truthy v = false \/
  (exists c s, v = JStr (c :: s)) \/
  (truthy v = true /\ call_trim v = throw /\ call_toLowerCase v = throw).
Proof.
  destruct v as [| |[]|n|[|c s]| |]; simpl; eauto 6.
  destruct (n =? 0); simpl; eauto 6.
Qed.

Lemma good_id : good (fun t => t).
Proof. by split. Qed.

Lemma good_compose g1 g2 : good g1 -> good g2 -> good (g1 ∘ g2).
Proof.
  intros [Hi1 He1] [Hi2 He2]. split; intros t; simpl.
  - by rewrite Hi1.
  - auto.
Qed.

Lemma good_set_title v : good (set_title v).
Proof. by split. Qed.
Lemma good_set_description v : good (set_description v).
Proof. by split. Qed.
Lemma good_set_updatedAt v : good (set_updatedAt v).
Proof. by split. Qed.
Lemma good_set_status v :
  includes [lit "pending"; lit "in-progress"; lit "completed"] v = true ->
  good (set_status v).
Proof.
  intros Hv. apply bool_decide_eq_true in Hv.
  split; [done|]. intros t [_ Hp]. by split.
Qed.
Lemma good_set_priority v :
  includes [lit "low"; lit "medium"; lit "high"] v = true ->
  good (set_priority v).
Proof.
  intros Hv. apply bool_decide_eq_true in Hv.
  split; [done|]. intros t [Hs _]. by split.
Qed.

Lemma findTaskById_Some l idp i t :
  findTaskById l idp = Some (i, t) ->
  l !! i = Some t /\ parseInt idp = Some (id t) /\
  forall j y, l !! j = Some y -> (j < i)%nat -> parseInt idp <> Some (id y).
Proof.
  unfold findTaskById. intros (Hl & Hp & Hmin)%list_find_Some.
  assert (Heq : forall y, strict_eq_num (id y) (parseInt idp) = true <->
                          parseInt idp = Some (id y)).
  { intros y. unfold strict_eq_num. destruct (parseInt idp) as [n|].
    - rewrite Z.eqb_eq. split; congruence.
    - split; discriminate. }
  split; [done|]. split; [by apply Heq|].
  intros j y Hj Hlt Hy. by apply (Hmin j y Hj Hlt), Heq.
Qed.

Lemma findTaskById_None l idp :
  findTaskById l idp = None <->
  forall t, t ∈ l -> parseInt idp <> Some (id t).
Proof.
  unfold findTaskById. rewrite list_find_None, Forall_forall.
  split; intros H t Ht; specialize (H t Ht); unfold strict_eq_num in *;
    destruct (parseInt idp) as [n|]; try done.
  - intros [= ->]. apply H. apply Z.eqb_refl.
  - rewrite Z.eqb_eq. congruence.
Qed.

(** *** PUT: every way the handler can end *)

Ltac field_cases v :=
  let H := fresh "H" in let H' := fresh "H" in let H'' := fresh "H" in
  let c := fresh "c" in let x := fresh "x" in
  destruct (jsval_cases v) as [H | [(c & x & ->) | (H & H' & H'')]];
  rewrite ?H, ?H', ?H''; cbn [truthy call_toLowerCase call_trim]; js_simpl.

Ltac good_tac :=
  repeat first
    [ apply good_id | apply good_set_title | apply good_set_description
    | apply good_set_updatedAt | (apply good_set_status; assumption)
    | (apply good_set_priority; assumption) | apply good_compose ].

Lemma put_ok_ext s i t now g h t' :
  good g -> (forall x, h x = set_updatedAt now (g x)) -> t' = h t ->
  put_outcome s i t now
    (Normal (Response 200 true (Some "Task updated successfully"%string) None
               (TaskData t')),
     Store (alter h i (tasks s)) (nextId s)).
Proof.
  intros Hg Hh ->. rewrite Hh.
  rewrite (list_alter_ext h (set_updatedAt now ∘ g) (tasks s) (tasks s) i);
    [by apply put_ok | by intros; rewrite Hh | done].
Qed.

Ltac strip_stamp h :=
  lazymatch h with
  | set_updatedAt _ => constr:(fun t : task => t)
  | ?a ∘ ?b => let a' := strip_stamp a in constr:(a' ∘ b)
  end.

Lemma put_task_cases idp b now s :
  match findTaskById (tasks s) idp with
  | None => put_task idp b now s = (Normal not_found, s)
  | Some (i, t) => put_outcome s i t now (put_task idp b now s)
  end.
Proof.
  unfold put_task. destruct b as [ti de st pr]. 
  cbn [Body.title Body.description Body.status Body.priority].
  js_simpl.
  destruct (findTaskById (tasks s) idp) as [[i t]|] eqn:Hfind; [|done].
  apply findTaskById_Some in Hfind as (Hi & _ & _).
  field_cases st; try apply put_throws_early;
  [| destruct (includes [lit "pending"; _; _] _) eqn:Hst; cbn [negb]; [|apply put_invalid] ];
  (field_cases pr; try apply put_throws_early;
  [| destruct (includes [lit "low"; _; _] _) eqn:Hpr; cbn [negb]; [|apply put_invalid] ]).
  all: field_cases ti; try apply put_throws_early.
  all: field_cases de; try apply put_throws_early.
  all: rewrite ?list_alter_alter_eq, ?list_lookup_alter_eq, ?Hi; cbn [fmap option_fmap option_map].
  all: try (eapply put_throws_late; good_tac).
  all: lazymatch goal with
       | |- put_outcome _ _ _ _ (_, Store (alter ?h _ _) _) =>
           let g := strip_stamp h in
           apply (put_ok_ext _ _ _ _ g); [good_tac | reflexivity | reflexivity]
       end.
Qed.

(** *** POST: every way the handler can end *)

Lemma enums_ok_new n ti de p c u :
  includes [lit "low"; lit "medium"; lit "high"] p = true ->
  enums_ok (Task n ti de (lit "pending") p c u).
Proof.
  intros Hp. apply bool_decide_eq_true in Hp. split; [|done].
  cbn [status]. apply list_elem_of_here.
Qed.

Lemma post_tasks_cases b now1 now2 s :
  post_outcome s (post_tasks b now1 now2 s).
Proof.
  unfold post_tasks. destruct b as [ti de st pr].
  cbn [Body.title Body.description Body.status Body.priority].
  field_cases ti; [apply post_invalid| |];
    (field_cases de; [apply post_invalid| |]).
  all: cbn [negb orb].
  all: destruct pr as [| |bp|np|sp| |]; cbn [call_toLowerCase]; js_simpl;
    try apply post_throws_early.
  all: try (destruct (includes _ (toLowerCase _)) eqn:Hp; cbn [negb];
            [|apply post_invalid]).
  all: try apply post_throws_late.
  all: try (apply post_ok; [reflexivity | by apply enums_ok_new]).
Qed.

(** *** GET /api/tasks never writes *)

Lemma read_only_ret {A} (a : A) : read_only (mret a).
Proof. by intros s0. Qed.
Lemma read_only_throw {A} : read_only (@throw A).
Proof. by intros s0. Qed.
Lemma read_only_read_tasks : read_only read_tasks.
Proof. by intros s0. Qed.
Lemma read_only_bind {A B} (m : js A) (k : A -> js B) :
  read_only m -> (forall a, read_only (k a)) -> read_only (m ≫= k).
Proof.
  intros Hm Hk s0. unfold mbind, js_bind. specialize (Hm s0).
  destruct (m s0) as [[a|] s1]; simpl in Hm; subst s1; [apply Hk | done].
Qed.
Lemma read_only_call_toLowerCase v : read_only (call_toLowerCase v).
Proof. destruct v; by intros s0. Qed.
Lemma read_only_filter_cb cb l :
  (forall t, read_only (cb t)) -> read_only (filter_cb cb l).
Proof.
  intros Hcb. induction l as [|t l IH]; cbn [filter_cb].
  - apply read_only_ret.
  - apply read_only_bind; [apply Hcb|]. intros keep.
    apply read_only_bind; [apply IH|]. intros rest. apply read_only_ret.
Qed.

Lemma returns_ret {A} (P : A -> Prop) (a : A) : P a -> returns P (mret a).
Proof. intros Ha s0 a' [= <-]. done. Qed.
Lemma returns_bind {A B} (P : B -> Prop) (m : js A) (k : A -> js B) :
  (forall a, returns P (k a)) -> returns P (m ≫= k).
Proof.
  intros Hk s0 b. unfold mbind, js_bind.
  destruct (m s0) as [[a|] s1]; [apply Hk | done].
Qed.

Lemma js_bind_normal {A B} (m : js A) (k : A -> js B) s a s' :
  m s = (Normal a, s') -> (m ≫= k) s = k a s'.
Proof. intros H. unfold mbind, js_bind. by rewrite H. Qed.

Lemma filter_cb_string (f : task -> jsstring) (w : jsstring) l s :
  filter_cb (fun t => wanted ← call_toLowerCase (JStr w);
                      mret (bool_decide (toLowerCase (f t) = wanted))) l s
  = (Normal (filter (fun t => ci_equal (f t) w) l), s).
Proof.
  induction l as [|t l IH]; [done|].
  cbn [filter_cb].
  erewrite js_bind_normal; [|reflexivity].
  erewrite js_bind_normal; [|exact IH].
  unfold mret, js_ret. rewrite filter_cons. unfold ci_equal.
  destruct (decide (toLowerCase (f t) = toLowerCase w)) as [He|He].
  - by rewrite bool_decide_eq_true_2.
  - by rewrite bool_decide_eq_false_2.
Qed.

Lemma get_tasks_store q s : (get_tasks q s).2 = s.
Proof.
  revert s. change (read_only (get_tasks q)). unfold get_tasks.
  apply read_only_bind; [apply read_only_read_tasks|]. intros all.
  apply read_only_bind.
  { destruct (truthy _); [|apply read_only_ret].
    apply read_only_filter_cb. intros t.
    apply read_only_bind; [apply read_only_call_toLowerCase|].
    intros w. apply read_only_ret. }
  intros l1. apply read_only_bind.
  { destruct (truthy _); [|apply read_only_ret].
    apply read_only_filter_cb. intros t.
    apply read_only_bind; [apply read_only_call_toLowerCase|].
    intros w. apply read_only_ret. }
  intros l2. apply read_only_ret.
Qed.

Lemma get_tasks_code q s res :
  (get_tasks q s).1 = Normal res -> code res = 200%nat.
Proof.
  revert s res. change (returns (fun res => code res = 200%nat) (get_tasks q)).
  unfold get_tasks. do 3 (apply returns_bind; intros ?). by apply returns_ret.
Qed.

(** *** The effect of one request *)

Lemma serve_effect r s : effect s (serve r s).2.
Proof.
  unfold serve. destruct r as [q|idp|b n1 n2|idp b now|idp|]; cbn [handler].
  - pose proof (get_tasks_store q s) as H.
    destruct (get_tasks q s) as [[res|] s']; simpl in *; subst s'; constructor.
  - unfold get_task. js_simpl.
    destruct (findTaskById (tasks s) idp) as [[i t]|]; constructor.
  - destruct (post_tasks_cases b n1 n2 s); cbn [snd]; by constructor.
  - pose proof (put_task_cases idp b now s) as H.
    destruct (findTaskById (tasks s) idp) as [[i t]|].
    + destruct H; cbn [snd];
        [constructor | constructor | by constructor |].
      apply effect_alter, good_compose; [apply good_set_updatedAt | done].
    + rewrite H. constructor.
  - unfold delete_task. js_simpl.
    destruct (findTaskById (tasks s) idp) as [[i t]|]; constructor.
  - constructor.
Qed.

(** A response announces a new id only when POST pushed a task with the
    value the counter had, and advanced the counter past it. *)
Lemma serve_issued r s n :
  issued_id (serve r s).1 = Some n ->
  n = nextId s /\ nextId (serve r s).2 = nextId s + 1.
Proof.
  unfold serve, issued_id.
  destruct r as [q|idp|b n1 n2|idp b now|idp|]; cbn [handler].
  - pose proof (get_tasks_code q s) as H.
    destruct (get_tasks q s) as [[res|] s']; simpl in *; [|done].
    by rewrite (H res eq_refl).
  - unfold get_task. js_simpl.
    by destruct (findTaskById (tasks s) idp) as [[i t]|].
  - destruct (post_tasks_cases b n1 n2 s) as [msg| | |t Hid Hok]; cbn; try done.
    intros [= <-]. done.
  - pose proof (put_task_cases idp b now s) as H.
    destruct (findTaskById (tasks s) idp) as [[i t]|].
    + by destruct H.
    + by rewrite H.
  - unfold delete_task. js_simpl.
    by destruct (findTaskById (tasks s) idp) as [[i t]|].
  - done.
Qed.

(** *** The store invariant *)

Lemma StronglySorted_delete {A} (R : relation A) (l : list A) i :
  StronglySorted R l -> StronglySorted R (delete i l).
Proof.
  intros H. revert i. induction H as [|x l Hl IH Hx]; intros [|i]; simpl.
  - constructor.
  - constructor.
  - done.
  - constructor; [apply IH | by apply Forall_delete].
Qed.

Lemma fmap_id_alter (g : task -> task) (i : nat) (l : list task) :
  (forall t, id (g t) = id t) -> id <$> alter g i l = id <$> l.
Proof.
  intros Hg. rewrite (list_fmap_alter id g (fun n => n));
    [|apply Forall_forall; intros x _; apply Hg].
  by apply list_alter_id.
Qed.

Lemma wf_initial c1 u1 c2 u2 : wf (initial_store c1 u1 c2 u2).
Proof.
  unfold wf, enums_ok. cbn. split_and!.
  - repeat constructor.
  - repeat constructor.
  - lia.
  - repeat constructor; set_solver.
Qed.

Lemma effect_wf s s' : effect s s' -> wf s -> wf s'.
Proof.
  intros He (Hsort & Hlt & H3 & Hen).
  destruct He as [| |t Hid Hok|i g [Hgid Hgen]|i]; unfold wf; cbn [tasks nextId].
  - done.
  - split_and!; [done| |lia|done].
    eapply Forall_impl; [exact Hlt|]. simpl. lia.
  - split_and!.
    + rewrite fmap_app. apply StronglySorted_app_2; [|done|repeat constructor].
      intros x1 x2 Hx1 Hx2. apply list_elem_of_fmap in Hx1 as (t1 & -> & Ht1).
      apply list_elem_of_singleton in Hx2 as ->.
      rewrite Forall_forall in Hlt. rewrite Hid. by apply Hlt.
    + apply Forall_app. split.
      * eapply Forall_impl; [exact Hlt|]. simpl. lia.
      * apply Forall_singleton. lia.
    + lia.
    + apply Forall_app. split; [done | by apply Forall_singleton].
  - split_and!.
    + by rewrite fmap_id_alter.
    + apply Forall_alter; [done|]. intros x _ Hx. by rewrite Hgid.
    + done.
    + apply Forall_alter; [done|]. intros x _ Hx. by apply Hgen.
  - split_and!.
    + rewrite list_fmap_delete. by apply StronglySorted_delete.
    + by apply Forall_delete.
    + done.
    + by apply Forall_delete.
Qed.

Lemma effect_nextId s s' : effect s s' -> nextId s <= nextId s'.
Proof. destruct 1; cbn [nextId]; lia. Qed.

Lemma reachable_wf s : reachable s -> wf s.
Proof.
  induction 1 as [c1 u1 c2 u2|r s Hs IH].
  - apply wf_initial.
  - eapply effect_wf; [apply serve_effect | done].
Qed.

Lemma wf_NoDup s : wf s -> NoDup (id <$> tasks s).
Proof.
  intros (Hsort & _). induction Hsort as [|x l Hl IH Hx]; constructor; [|done].
  intros Hin. rewrite Forall_forall in Hx. specialize (Hx x Hin). lia.
Qed.

(** *** Case-insensitive membership is what the validations test *)

Lemma ci_member_priority p :
  ci_member p ["low"; "medium"; "high"]%string <->
  includes [lit "low"; lit "medium"; lit "high"] (toLowerCase p) = true.
Proof.
  unfold ci_member, includes, ci_equal. rewrite bool_decide_eq_true.
  rewrite !Exists_cons, Exists_nil. rewrite !elem_of_cons, elem_of_nil.
  change (toLowerCase (lit "low")) with (lit "low").
  change (toLowerCase (lit "medium")) with (lit "medium").
  change (toLowerCase (lit "high")) with (lit "high").
  tauto.
Qed.

Lemma ci_member_status p :
  ci_member p ["pending"; "in-progress"; "completed"]%string <->
  includes [lit "pending"; lit "in-progress"; lit "completed"] (toLowerCase p) = true.
Proof.
  unfold ci_member, includes, ci_equal. rewrite bool_decide_eq_true.
  rewrite !Exists_cons, Exists_nil. rewrite !elem_of_cons, elem_of_nil.
  change (toLowerCase (lit "pending")) with (lit "pending").
  change (toLowerCase (lit "in-progress")) with (lit "in-progress").
  change (toLowerCase (lit "completed")) with (lit "completed").
  tauto.
Qed.

(** ** Create *)

(** C1.  A Create whose title and description are non-empty strings and
    whose priority is omitted or, ignoring case, one of low, medium, high
    succeeds with 201; the returned record has status "pending", the
    lower-cased priority (or "medium"), the title and description with
    leading and trailing white space removed and the next id, and it is
    appended at the end of the collection. *)
Theorem create_valid_request (s : store) (b : Body.t) (ti de : jsstring)
    (now1 now2 : timestamp) :
  Body.title b = JStr ti -> ti <> [] ->
  Body.description b = JStr de -> de <> [] ->
  (Body.priority b = JUndefined \/
   exists p, Body.priority b = JStr p /\
             ci_member p ["low"; "medium"; "high"]%string) ->
  exists t,
    serve (POST_tasks b now1 now2) s =
      (Response 201 true (Some "Task created successfully"%string) None (TaskData t),
       Store (tasks s ++ [t]) (nextId s + 1)) /\
    status t = lit "pending" /\
    priority t = requested_priority (Body.priority b) /\
    is_trim_of ti (title t) /\
    is_trim_of de (description t) /\
    id t = nextId s.
Proof.
  intros Hti Hne1 Hde Hne2 Hpr.
  destruct b as [bt bd bs bp]. simpl in Hti, Hde, Hpr. subst bt bd.
  destruct ti as [|c1 ti]; [done|]. destruct de as [|c2 de]; [done|].
  unfold serve, handler, post_tasks.
  cbn [Body.title Body.description Body.priority truthy negb orb].
  destruct Hpr as [-> | (p & -> & Hp)].
  - eexists. split; [reflexivity|].
    split_and!; try reflexivity; apply trim_is_trim_of.
  - apply ci_member_priority in Hp.
    cbn [call_toLowerCase]. js_simpl. rewrite Hp. cbn [negb call_trim].
    eexists. split; [reflexivity|].
    split_and!; try reflexivity; apply trim_is_trim_of.
Qed.

Lemma create_valid_request_witness :
  exists t,
    serve (POST_tasks (Body.Make (JStr (lit " A ")) (JStr (lit "B")) JUndefined
                         (JStr (lit "High")))
             (lit "t1") (lit "t2"))
          (initial_store [] [] [] []) =
      (Response 201 true (Some "Task created successfully"%string) None (TaskData t),
       Store (tasks (initial_store [] [] [] []) ++ [t]) 4) /\
    status t = lit "pending" /\
    priority t = lit "high" /\
    is_trim_of (lit " A ") (title t) /\
    is_trim_of (lit "B") (description t) /\
    id t = 3.
Proof.
  apply (create_valid_request (initial_store [] [] [] [])
           (Body.Make (JStr (lit " A ")) (JStr (lit "B")) JUndefined
              (JStr (lit "High")))
           (lit " A ") (lit "B") (lit "t1") (lit "t2")).
  - reflexivity.
  - discriminate.
  - reflexivity.
  - discriminate.
  - right. exists (lit "High"). split; [reflexivity|].
    apply Exists_cons_tl, Exists_cons_tl, Exists_cons_hd. reflexivity.
Defined.

(** ** Get *)

Lemma radix_digit_10 c : is_decimal_digit c = false -> radix_digit 10 c = None.
Proof.
  unfold radix_digit, digit_value, is_decimal_digit. intros ->.
  destruct ((97 <=? c)%N && (c <=? 122)%N) eqn:H1.
  - apply andb_true_iff in H1 as [H1 H2]. apply N.leb_le in H1, H2.
    destruct (Z.ltb_spec (Z.of_N c - 87) 10); [lia | done].
  - destruct ((65 <=? c)%N && (c <=? 90)%N) eqn:H2; [|done].
    apply andb_true_iff in H2 as [H2 H3]. apply N.leb_le in H2, H3.
    destruct (Z.ltb_spec (Z.of_N c - 55) 10); [lia | done].
Qed.

Lemma parseInt_no_prefix idp :
  has_integer_prefix idp = false -> parseInt idp = None.
Proof.
  unfold has_integer_prefix, parseInt, strip_sign.
  assert (Hbody : forall S1 : jsstring,
    match S1 with c :: _ => is_decimal_digit c | [] => false end = false ->
    (let '(R, S2) :=
       match S1 with
       | 48%N :: x :: r =>
           if ((x =? 120) || (x =? 88))%N then (16, r) else (10, S1)
       | _ => (10, S1)
       end in
     match take_digits R S2 with
     | [] => None
     | ds => Some (1 * math_int R ds)
     end) = None /\
    (let '(R, S2) :=
       match S1 with
       | 48%N :: x :: r =>
           if ((x =? 120) || (x =? 88))%N then (16, r) else (10, S1)
       | _ => (10, S1)
       end in
     match take_digits R S2 with
     | [] => None
     | ds => Some (-1 * math_int R ds)
     end) = None).
  { intros [|c r] Hc; [done|].
    assert (Hc0 : c <> 48%N) by (intros ->; done).
    assert (Hrd := radix_digit_10 c Hc).
    destruct c as [|pc]; [cbn [take_digits]; by rewrite Hrd|].
    repeat (destruct pc as [pc|pc|]; try (cbn [take_digits]; by rewrite Hrd)).
    done. }
  destruct (trimStart idp) as [|c r]; [done|].
  destruct (c =? 45)%N eqn:H45.
  - cbn [orb]. intros Hr. by destruct (Hbody r Hr) as [_ ->].
  - destruct (c =? 43)%N eqn:H43.
    + cbn [orb]. intros Hr. by destruct (Hbody r Hr) as [-> _].
    + cbn [orb]. intros Hc. by destruct (Hbody (c :: r) Hc) as [-> _].
Qed.

Lemma findTaskById_parsed l idp :
  findTaskById l idp =
    match parseInt idp with
    | Some n => list_find (fun t => id t = n) l
    | None => None
    end.
Proof.
  unfold findTaskById. destruct (parseInt idp) as [n|]; simpl.
  - apply list_find_ext. intros t. apply Z.eqb_eq.
  - apply list_find_None, Forall_forall. intros t _. discriminate.
Qed.

Lemma serve_GET_task s idp :
  serve (GET_task idp) s =
    (match findTaskById (tasks s) idp with
     | Some (_, t) => Response 200 true None None (TaskData t)
     | None => not_found
     end, s).
Proof.
  unfold serve, handler, get_task. js_simpl.
  by destruct (findTaskById (tasks s) idp) as [[i t]|].
Qed.

(** C2 as stated fails: "1st" is not a number, yet [parseInt] reads it as
    1 and GET /api/tasks/1st answers with the first seed task. *)
Lemma get_task_non_numeric_counterexample :
  ~ (forall s idp, numeric_identifier idp = false ->
       is_NotFound (serve (GET_task idp) s).1).
Proof.
  intros H.
  specialize (H (initial_store [] [] [] []) (lit "1st") eq_refl).
  destruct H as [H _]. vm_compute in H. discriminate.
Qed.

(** C2, amended.  GET /api/tasks/:id parses the identifier with [parseInt]
    and answers with the first task whose id is that number.  An
    identifier that does not begin (after white space and a sign) with a
    decimal digit yields no number and matches nothing; whenever no task
    matches, the answer is 404 "Task not found".  The store is never
    changed. *)
Theorem get_task_by_parsed_id (s : store) (idp : jsstring) :
  (serve (GET_task idp) s).2 = s /\
  (serve (GET_task idp) s).1 =
    match parseInt idp with
    | Some n =>
        match list_find (fun t => id t = n) (tasks s) with
        | Some (_, t) => Response 200 true None None (TaskData t)
        | None => not_found
        end
    | None => not_found
    end /\
  (has_integer_prefix idp = false ->
     (serve (GET_task idp) s).1 = not_found) /\
  ((forall t, t ∈ tasks s -> parseInt idp <> Some (id t)) ->
     is_NotFound (serve (GET_task idp) s).1).
Proof.
  rewrite serve_GET_task. cbn [fst snd]. split_and!.
  - done.
  - rewrite findTaskById_parsed. by destruct (parseInt idp).
  - intros Hp. rewrite findTaskById_parsed, (parseInt_no_prefix idp Hp). done.
  - intros Hnone. apply findTaskById_None in Hnone. by rewrite Hnone.
Qed.

Lemma get_task_by_parsed_id_witness :
  (serve (GET_task (lit "first")) (initial_store [] [] [] [])).1 = not_found /\
  is_NotFound (serve (GET_task (lit "999")) (initial_store [] [] [] [])).1.
Proof.
  split.
  - apply (get_task_by_parsed_id (initial_store [] [] [] []) (lit "first")).
    reflexivity.
  - apply (get_task_by_parsed_id (initial_store [] [] [] []) (lit "999")).
    intros t Ht. vm_compute in Ht.
    apply elem_of_cons in Ht as [->|Ht]; [discriminate|].
    apply elem_of_cons in Ht as [->|Ht]; [discriminate|].
    by apply elem_of_nil in Ht.
Defined.

(** ** Stats *)

Lemma count_where_partition (f : task -> jsstring) (a b c : string) l :
  lit a <> lit b -> lit a <> lit c -> lit b <> lit c ->
  Forall (fun t => f t ∈ [lit a; lit b; lit c]) l ->
  (count_where f a l + count_where f b l + count_where f c l)%nat = length l.
Proof.
  intros Hab Hac Hbc Hall. unfold count_where.
  induction Hall as [|t l Ht Hl IH]; [done|].
  rewrite !filter_cons. cbn [length]. rewrite <- IH.
  apply elem_of_cons in Ht as [Ht|Ht]; [|apply elem_of_cons in Ht as [Ht|Ht]];
    [| |apply list_elem_of_singleton in Ht]; rewrite Ht;
    repeat (case_decide; try congruence); cbn [length]; lia.
Qed.

(** C3.  In every reachable store state GET /api/stats succeeds, [total]
    is the length of the collection, the three per-status counts add up to
    [total] and so do the three per-priority counts. *)
Theorem stats_totals (s : store) :
  reachable s ->
  exists st,
    serve GET_stats s = (Response 200 true None None (StatsData st), s) /\
    total st = length (tasks s) /\
    (pending st + inProgress st + completed st)%nat = total st /\
    (high (byPriority st) + medium (byPriority st) + low (byPriority st))%nat
      = total st.
Proof.
  intros Hs. apply reachable_wf in Hs as (_ & _ & _ & Hen).
  eexists. split; [reflexivity|]. cbn [total pending inProgress completed
    byPriority high medium low]. split_and!.
  - done.
  - apply count_where_partition; [done..|].
    eapply Forall_impl; [exact Hen|]. by intros t [Hst _].
  - rewrite <- (count_where_partition priority "low" "medium" "high" (tasks s));
      [lia|done..|].
    eapply Forall_impl; [exact Hen|]. by intros t [_ Hpr].
Qed.

Lemma stats_totals_witness :
  exists st,
    serve GET_stats (initial_store [] [] [] []) =
      (Response 200 true None None (StatsData st), initial_store [] [] [] []) /\
    total st = 2%nat /\
    (pending st + inProgress st + completed st)%nat = total st /\
    (high (byPriority st) + medium (byPriority st) + low (byPriority st))%nat
      = total st.
Proof.
  apply (stats_totals (initial_store [] [] [] [])). apply reachable_init.
Defined.

(** ** Runs *)

Lemma run_cons r rs s :
  run (r :: rs) s =
    ((serve r s).1 :: (run rs (serve r s).2).1, (run rs (serve r s).2).2).
Proof.
  cbn [run]. destruct (serve r s) as [res s1]. cbn [fst snd].
  by destruct (run rs s1) as [out s2].
Qed.

Lemma run_snoc rs r s :
  (run (rs ++ [r]) s).2 = (serve r (run rs s).2).2.
Proof.
  revert s. induction rs as [|r0 rs IH]; intros s.
  - cbn [app]. rewrite run_cons. done.
  - cbn [app]. rewrite !run_cons. cbn [snd]. apply IH.
Qed.

Lemma run_reachable rs s : reachable s -> reachable (run rs s).2.
Proof.
  revert s. induction rs as [|r rs IH]; intros s Hs; [done|].
  rewrite run_cons. cbn [snd]. apply IH. by constructor.
Qed.

(** The reachable states are exactly the final states of runs started
    from the initial store. *)
Lemma reachable_is_run s :
  reachable s <->
  exists c1 u1 c2 u2 rs, s = (run rs (initial_store c1 u1 c2 u2)).2.
Proof.
  split.
  - induction 1 as [c1 u1 c2 u2|r s Hs (c1 & u1 & c2 & u2 & rs & ->)].
    + by exists c1, u1, c2, u2, [].
    + exists c1, u1, c2, u2, (rs ++ [r]). by rewrite run_snoc.
  - intros (c1 & u1 & c2 & u2 & rs & ->). apply run_reachable. constructor.
Qed.

Lemma issued_ids_cons res out :
  issued_ids (res :: out) =
    match issued_id res with
    | Some n => n :: issued_ids out
    | None => issued_ids out
    end.
Proof. done. Qed.

Lemma run_issued rs s :
  wf s ->
  wf (run rs s).2 /\
  nextId s <= nextId (run rs s).2 /\
  StronglySorted Z.lt (issued_ids (run rs s).1) /\
  Forall (fun n => nextId s <= n < nextId (run rs s).2) (issued_ids (run rs s).1).
Proof.
  revert s. induction rs as [|r rs IH]; intros s Hs.
  - cbn. split_and!; [done|lia|constructor|constructor].
  - rewrite run_cons. cbn [fst snd].
    pose proof (serve_effect r s) as He.
    pose proof (effect_nextId _ _ He) as Hle.
    destruct (IH _ (effect_wf _ _ He Hs)) as (Hwf & Hn & Hsort & Hall).
    split_and!; [done|lia| |]; rewrite issued_ids_cons;
      destruct (issued_id (serve r s).1) as [n|] eqn:Hn0.
    + apply serve_issued in Hn0 as [-> Hnext].
      constructor; [done|]. eapply Forall_impl; [exact Hall|]. simpl. lia.
    + done.
    + apply serve_issued in Hn0 as [-> Hnext].
      constructor; [lia|]. eapply Forall_impl; [exact Hall|]. simpl. lia.
    + eapply Forall_impl; [exact Hall|]. simpl. lia.
Qed.

Lemma StronglySorted_lt_NoDup (l : list Z) : StronglySorted Z.lt l -> NoDup l.
Proof.
  induction 1 as [|x l Hl IH Hx]; constructor; [|done].
  intros Hin. rewrite Forall_forall in Hx. specialize (Hx x Hin). lia.
Qed.

(** X18.  The counter starts at 3, so the only id the initial store can
    issue is 3.  Along every run of the server the ids announced by
    successful Creates are strictly increasing and at least 3, hence never
    repeated, whatever Deletes happen in between; and the store reached
    holds at most one task per id. *)
Theorem issued_ids_strictly_increasing (c1 u1 c2 u2 : timestamp)
    (rs : list request) :
  nextId (initial_store c1 u1 c2 u2) = 3 /\
  (forall r, issued_id (serve r (initial_store c1 u1 c2 u2)).1 = None \/
             issued_id (serve r (initial_store c1 u1 c2 u2)).1 = Some 3) /\
  StronglySorted Z.lt (issued_ids (run rs (initial_store c1 u1 c2 u2)).1) /\
  Forall (fun n => 3 <= n) (issued_ids (run rs (initial_store c1 u1 c2 u2)).1) /\
  NoDup (issued_ids (run rs (initial_store c1 u1 c2 u2)).1) /\
  NoDup (id <$> tasks (run rs (initial_store c1 u1 c2 u2)).2).
Proof.
  destruct (run_issued rs _ (wf_initial c1 u1 c2 u2)) as (Hwf & _ & Hsort & Hall).
  split_and!.
  - done.
  - intros r. destruct (issued_id _) as [n|] eqn:Hn; [right | by left].
    by apply serve_issued in Hn as [-> _].
  - done.
  - eapply Forall_impl; [exact Hall|]. cbn. lia.
  - by apply StronglySorted_lt_NoDup.
  - by apply wf_NoDup.
Qed.

(** C4, the code at the failing input.  POST /api/tasks with the title
    "A" and the JSON value [true] as description passes both validations,
    evaluates [nextId++] and then throws at [description.trim()]: the
    answer is 500, no task is added, and the counter stands at 4.  From
    that store on, whatever requests follow, every id issued is at least
    4: the ids issued by successful Creates do not start at 3, and 3 is
    never issued.  In the run made of that request and one valid Create
    the first, and only, id issued is 4. *)
Theorem issued_ids_need_not_start_at_3 :
  serve (POST_tasks (Body.Make (JStr (lit "A")) (JBool true) JUndefined JUndefined) [] [])
        (initial_store [] [] [] [])
    = (internal_error, Store (tasks (initial_store [] [] [] [])) 4) /\
  (forall rs,
     Forall (fun n => 4 <= n)
       (issued_ids (run rs (Store (tasks (initial_store [] [] [] [])) 4)).1)) /\
  head (issued_ids
          (run [POST_tasks (Body.Make (JStr (lit "A")) (JBool true) JUndefined JUndefined) [] [];
                POST_tasks (Body.Make (JStr (lit "A")) (JStr (lit "B")) JUndefined JUndefined) [] []]
               (initial_store [] [] [] [])).1)
    = Some 4.
Proof.
  split_and!.
  - reflexivity.
  - intros rs.
    assert (Hwf : wf (Store (tasks (initial_store [] [] [] [])) 4)).
    { eapply effect_wf; [apply effect_bump | apply wf_initial]. }
    destruct (run_issued rs _ Hwf) as (_ & _ & _ & Hall).
    eapply Forall_impl; [exact Hall|]. cbn. lia.
  - reflexivity.
Qed.

(** ** Update *)

Lemma not_supplied_falsy v : not_supplied v -> truthy v = false.
Proof. by intros [-> | ->]. Qed.

Lemma findTaskById_existing l idp :
  (exists t, t ∈ l /\ parseInt idp = Some (id t)) ->
  exists i t, findTaskById l idp = Some (i, t).
Proof.
  intros (t & Ht & Hp).
  destruct (findTaskById l idp) as [[i t']|] eqn:Hf; [eauto|].
  rewrite findTaskById_None in Hf. by destruct (Hf t Ht).
Qed.

Lemma alter_as_insert (f : task -> task) (l : list task) (i : nat) t :
  l !! i = Some t -> alter f i l = <[i := f t]> l.
Proof.
  intros Hi. rewrite list_insert_alter.
  apply list_alter_ext; [|done]. intros x. rewrite Hi. by intros [= <-].
Qed.

(** C5.  When the identifier names an existing task, found at position
    [i], an Update whose four fields are each absent or the empty string
    succeeds, is no ValidationError, and replaces that task by the same
    record with [updatedAt] set to the current time: every other field of
    it and every other task is as before.  Moreover every successful
    Update, whatever its fields, leaves [updatedAt] of the task it
    returns and stores equal to the current time. *)
Theorem update_without_fields (s : store) (idp : jsstring) (now : timestamp) :
  (exists t, t ∈ tasks s /\ parseInt idp = Some (id t)) ->
  exists i t,
    tasks s !! i = Some t /\ parseInt idp = Some (id t) /\
    (forall b,
       not_supplied (Body.title b) -> not_supplied (Body.description b) ->
       not_supplied (Body.status b) -> not_supplied (Body.priority b) ->
       serve (PUT_task idp b now) s =
         (Response 200 true (Some "Task updated successfully"%string) None
            (TaskData (Task (id t) (title t) (description t) (status t)
                         (priority t) (createdAt t) now)),
          Store (<[i := Task (id t) (title t) (description t) (status t)
                           (priority t) (createdAt t) now]> (tasks s))
                (nextId s))) /\
    (forall b res s',
       serve (PUT_task idp b now) s = (res, s') -> code res = 200%nat ->
       exists t', data res = TaskData t' /\ tasks s' !! i = Some t' /\
                  updatedAt t' = now).
Proof.
  intros Hex. destruct (findTaskById_existing _ _ Hex) as (i & t & Hfind).
  destruct (findTaskById_Some _ _ _ _ Hfind) as (Hi & Hp & _).
  exists i, t. split_and!; [done..| |].
  - intros [bt bd bs bp]. cbn [Body.title Body.description Body.status Body.priority].
    intros Ht%not_supplied_falsy Hd%not_supplied_falsy
           Hs%not_supplied_falsy Hpr%not_supplied_falsy.
    unfold serve, handler, put_task.
    cbn [Body.title Body.description Body.status Body.priority].
    js_simpl. rewrite Hfind, Ht, Hd, Hs, Hpr.
    rewrite list_lookup_alter_eq, Hi. cbn [fmap option_fmap option_map].
    by rewrite (alter_as_insert _ _ _ t Hi).
  - intros b res s' Hserve Hcode. unfold serve, handler in Hserve.
    pose proof (put_task_cases idp b now s) as Hcases. rewrite Hfind in Hcases.
    destruct Hcases as [msg| |g Hg|g Hg]; simplify_eq; try done.
    eexists. split; [done|]. cbn [tasks].
    rewrite list_lookup_alter_eq, Hi. done.
Qed.

Lemma update_without_fields_witness :
  exists i t,
    tasks (initial_store [] [] [] []) !! i = Some t /\
    parseInt (lit "2") = Some (id t) /\
    (forall b,
       not_supplied (Body.title b) -> not_supplied (Body.description b) ->
       not_supplied (Body.status b) -> not_supplied (Body.priority b) ->
       serve (PUT_task (lit "2") b (lit "now")) (initial_store [] [] [] []) =
         (Response 200 true (Some "Task updated successfully"%string) None
            (TaskData (Task (id t) (title t) (description t) (status t)
                         (priority t) (createdAt t) (lit "now"))),
          Store (<[i := Task (id t) (title t) (description t) (status t)
                           (priority t) (createdAt t) (lit "now")]>
                   (tasks (initial_store [] [] [] [])))
                (nextId (initial_store [] [] [] [])))) /\
    (forall b res s',
       serve (PUT_task (lit "2") b (lit "now")) (initial_store [] [] [] [])
         = (res, s') ->
       code res = 200%nat ->
       exists t', data res = TaskData t' /\ tasks s' !! i = Some t' /\
                  updatedAt t' = lit "now").
Proof.
  apply (update_without_fields (initial_store [] [] [] []) (lit "2") (lit "now")).
  eexists. split; [apply list_elem_of_further, list_elem_of_here | reflexivity].
Defined.

(** ** Delete *)

Lemma filter_keeps_all (P : task -> Prop) `{!forall t, Decision (P t)} l :
  Forall P l -> filter P l = l.
Proof.
  induction 1 as [|t l Ht Hl IH]; [done|].
  rewrite filter_cons, decide_True by done. by rewrite IH.
Qed.

Lemma delete_as_filter (l : list task) (i : nat) t :
  NoDup (id <$> l) -> l !! i = Some t ->
  delete i l = filter (fun t' => id t' <> id t) l.
Proof.
  revert i. induction l as [|x l IH]; intros i Hnd Hi; [done|].
  rewrite fmap_cons in Hnd. apply NoDup_cons in Hnd as [Hx Hnd].
  destruct i as [|i]; simpl in Hi.
  - injection Hi as ->. cbn [delete list_delete].
    rewrite filter_cons, decide_False by (intros H; by apply H).
    symmetry. apply filter_keeps_all, Forall_forall.
    intros y Hy Heq. apply Hx. rewrite <- Heq. by apply list_elem_of_fmap_2.
  - cbn [delete list_delete]. rewrite filter_cons, decide_True.
    + f_equal. by apply IH.
    + intros Heq. apply Hx. rewrite Heq.
      apply list_elem_of_fmap_2. by eapply list_elem_of_lookup_2.
Qed.

Lemma findTaskById_unique l idp t :
  NoDup (id <$> l) -> t ∈ l -> parseInt idp = Some (id t) ->
  exists i, findTaskById l idp = Some (i, t).
Proof.
  intros Hnd Ht Hp.
  destruct (findTaskById_existing l idp) as (i & t' & Hf); [eauto|].
  exists i. rewrite Hf. do 2 f_equal.
  apply findTaskById_Some in Hf as (Hi & Hp' & _).
  apply list_elem_of_lookup in Ht as [j Hj].
  assert (Hid : id t' = id t) by congruence.
  assert (i = j) as ->.
  { apply (NoDup_lookup (id <$> l) i j (id t) Hnd);
      rewrite list_lookup_fmap; [rewrite Hi | rewrite Hj]; simpl; congruence. }
  congruence.
Qed.

Lemma effect_gone n s s' : effect s s' -> gone n s -> gone n s'.
Proof.
  intros He [Hlt Hn].
  destruct He as [| |t Hid Hok|i g [Hgid Hgen]|i]; unfold gone; cbn [tasks nextId].
  - done.
  - split; [lia | done].
  - split; [lia|]. rewrite fmap_app. intros [H|H]%elem_of_app; [done|].
    apply list_elem_of_singleton in H. lia.
  - split; [done|]. by rewrite fmap_id_alter.
  - split; [done|]. rewrite list_fmap_delete.
    intros H. by apply list_elem_of_delete_inv in H.
Qed.

Lemma run_gone n rs s : gone n s -> gone n (run rs s).2.
Proof.
  revert s. induction rs as [|r rs IH]; intros s Hs; [done|].
  rewrite run_cons. cbn [snd]. apply IH.
  eapply effect_gone; [apply serve_effect | done].
Qed.

Lemma get_task_gone n s idp :
  gone n s -> parseInt idp = Some n -> (serve (GET_task idp) s).1 = not_found.
Proof.
  intros [_ Hn] Hp. rewrite serve_GET_task. cbn [fst].
  assert (Hnone : findTaskById (tasks s) idp = None).
  { apply findTaskById_None. intros t Ht Heq. apply Hn.
    rewrite Hp in Heq. injection Heq as ->. by apply list_elem_of_fmap_2. }
  by rewrite Hnone.
Qed.

Lemma serve_DELETE_task s idp :
  serve (DELETE_task idp) s =
    match findTaskById (tasks s) idp with
    | Some (i, t) =>
        (Response 200 true (Some "Task deleted successfully"%string) None (TaskData t),
         Store (delete i (tasks s)) (nextId s))
    | None => (not_found, s)
    end.
Proof.
  unfold serve, handler, delete_task. js_simpl.
  by destruct (findTaskById (tasks s) idp) as [[i t]|].
Qed.

(** C6.  In a reachable store, DELETE of an identifier that names no task
    answers 404 "Task not found" and changes nothing.  DELETE of an
    identifier naming task [t] answers with [t] as it was, and the
    collection afterwards is the old one without the record of that id,
    one record shorter and otherwise in the same order.  From then on,
    whatever requests follow (Creates included), GET of that id answers
    404 "Task not found". *)
Theorem delete_then_get (s : store) (idp : jsstring) :
  reachable s ->
  ((forall t, t ∈ tasks s -> parseInt idp <> Some (id t)) ->
     serve (DELETE_task idp) s = (not_found, s)) /\
  (forall t, t ∈ tasks s -> parseInt idp = Some (id t) ->
     serve (DELETE_task idp) s =
       (Response 200 true (Some "Task deleted successfully"%string) None (TaskData t),
        Store (filter (fun t' => id t' <> id t) (tasks s)) (nextId s)) /\
     (length (filter (fun t' => id t' <> id t) (tasks s)) + 1)%nat
       = length (tasks s) /\
     forall rs idp',
       parseInt idp' = parseInt idp ->
       (serve (GET_task idp') (run rs (serve (DELETE_task idp) s).2).2).1
         = not_found).
Proof.
  intros Hs. apply reachable_wf in Hs. pose proof (wf_NoDup s Hs) as Hnd.
  split.
  - intros Hnone. apply findTaskById_None in Hnone.
    by rewrite serve_DELETE_task, Hnone.
  - intros t Ht Hp.
    destruct (findTaskById_unique _ _ _ Hnd Ht Hp) as [i Hf].
    pose proof (findTaskById_Some _ _ _ _ Hf) as (Hi & _ & _).
    assert (Hdel : serve (DELETE_task idp) s =
      (Response 200 true (Some "Task deleted successfully"%string) None (TaskData t),
       Store (filter (fun t' => id t' <> id t) (tasks s)) (nextId s))).
    { rewrite serve_DELETE_task, Hf. by rewrite (delete_as_filter _ _ _ Hnd Hi). }
    split_and!.
    + done.
    + rewrite <- (delete_as_filter _ _ _ Hnd Hi).
      rewrite length_delete by (by rewrite Hi).
      apply lookup_lt_Some in Hi. lia.
    + intros rs idp' Hp'. rewrite Hdel. cbn [snd].
      apply (get_task_gone (id t)); [|congruence].
      apply run_gone. split; cbn [tasks nextId].
      * destruct Hs as (_ & Hlt & _). rewrite Forall_forall in Hlt. by apply Hlt.
      * intros (t' & Heq & Hin)%list_elem_of_fmap.
        apply list_elem_of_filter in Hin as [Hne _]. congruence.
Qed.

Lemma delete_then_get_witness :
  serve (DELETE_task (lit "7")) (initial_store [] [] [] [])
    = (not_found, initial_store [] [] [] []) /\
  (serve (GET_task (lit "1"))
     (run [GET_stats] (serve (DELETE_task (lit "1")) (initial_store [] [] [] [])).2).2).1
    = not_found.
Proof.
  split.
  - apply (delete_then_get (initial_store [] [] [] []) (lit "7")).
    + apply reachable_init.
    + intros t Ht. vm_compute in Ht.
      apply elem_of_cons in Ht as [->|Ht]; [discriminate|].
      apply elem_of_cons in Ht as [->|Ht]; [discriminate|].
      by apply elem_of_nil in Ht.
  - eapply (delete_then_get (initial_store [] [] [] []) (lit "1")).
    + apply reachable_init.
    + apply list_elem_of_here.
    + reflexivity.
    + reflexivity.
Defined.

(** ** List *)

Lemma filter_stage (f : task -> jsstring) v l s :
  text_or_absent v ->
  (if truthy v
   then filter_cb (fun t => wanted ← call_toLowerCase v;
                   mret (bool_decide (toLowerCase (f t) = wanted))) l
   else mret l) s
  = (Normal (filter (fun t => passes v (f t)) l), s).
Proof.
  intros [-> | [[|c w] ->]]; cbn [truthy].
  - by rewrite filter_keeps_all by (by apply Forall_forall).
  - by rewrite filter_keeps_all by (by apply Forall_forall).
  - apply filter_cb_string.
Qed.

Lemma serve_GET_tasks_store q s : (serve (GET_tasks q) s).2 = s.
Proof.
  unfold serve, handler. pose proof (get_tasks_store q s) as H.
  by destruct (get_tasks q s) as [[res|] s'].
Qed.

(** A repeated key, as in GET /api/tasks?status=a&status=b, arrives as an
    array: the callback throws on the first task and the answer is 500. *)
Lemma list_array_filter_throws :
  serve (GET_tasks (Query.Make JArray JUndefined)) (initial_store [] [] [] [])
    = (internal_error, initial_store [] [] [] []).
Proof. reflexivity. Qed.

(** C7 as stated fails: GET /api/tasks?status= gives an empty filter
    value; no task has the empty status, yet both seed tasks are
    returned. *)
Lemma list_empty_filter_counterexample :
  ~ (forall s w,
       (serve (GET_tasks (Query.Make (JStr w) JUndefined)) s).1 =
         Response 200 true None
           (Some (length (filter (fun t => ci_equal (status t) w) (tasks s))))
           (TasksData (filter (fun t => ci_equal (status t) w) (tasks s)))).
Proof.
  intros H. specialize (H (initial_store [] [] [] []) []).
  vm_compute in H. discriminate.
Qed.

(** C7, amended.  GET /api/tasks never changes the store.  When each of
    the two query parameters is absent or a string, it answers 200 with
    the tasks, in collection order, whose status equals the status
    parameter up to case if that parameter is a non-empty string, and
    whose priority equals the priority parameter up to case if that one
    is a non-empty string; [count] is their number.  A parameter that is
    absent or empty is not applied, so with neither given the whole
    collection is returned. *)
Theorem list_applies_filters (s : store) (q : Query.t) :
  (serve (GET_tasks q) s).2 = s /\
  (text_or_absent (Query.status q) -> text_or_absent (Query.priority q) ->
     (serve (GET_tasks q) s).1 =
       Response 200 true None
         (Some (length (filter (fun t => passes (Query.status q) (status t) /\
                                         passes (Query.priority q) (priority t))
                          (tasks s))))
         (TasksData (filter (fun t => passes (Query.status q) (status t) /\
                                      passes (Query.priority q) (priority t))
                       (tasks s)))) /\
  (not_supplied (Query.status q) -> not_supplied (Query.priority q) ->
     (serve (GET_tasks q) s).1 =
       Response 200 true None (Some (length (tasks s))) (TasksData (tasks s))).
Proof.
  assert (Hstr : text_or_absent (Query.status q) ->
                 text_or_absent (Query.priority q) ->
    get_tasks q s =
      (Normal (Response 200 true None
         (Some (length (filter (fun t => passes (Query.status q) (status t) /\
                                         passes (Query.priority q) (priority t))
                          (tasks s))))
         (TasksData (filter (fun t => passes (Query.status q) (status t) /\
                                      passes (Query.priority q) (priority t))
                       (tasks s)))), s)).
  { intros Hst Hpr. unfold get_tasks.
    erewrite js_bind_normal; [|reflexivity].
    erewrite js_bind_normal; [|by apply filter_stage].
    erewrite js_bind_normal; [|by apply filter_stage].
    unfold mret, js_ret. rewrite list_filter_filter.
    rewrite (list_filter_iff _
      (fun t => passes (Query.status q) (status t) /\
                passes (Query.priority q) (priority t))); [done|].
    intros t. tauto. }
  split_and!.
  - apply serve_GET_tasks_store.
  - intros Hst Hpr. unfold serve, handler. by rewrite Hstr.
  - intros Hst Hpr. unfold serve, handler. rewrite Hstr.
    + cbn [fst]. rewrite filter_keeps_all; [done|].
      apply Forall_forall. intros t _.
      by destruct Hst as [-> | ->], Hpr as [-> | ->].
    + destruct Hst as [-> | ->]; [by left | right; eauto].
    + destruct Hpr as [-> | ->]; [by left | right; eauto].
Qed.

Lemma list_applies_filters_witness :
  (serve (GET_tasks (Query.Make (JStr (lit "PENDING")) JUndefined))
     (initial_store [] [] [] [])).1 =
    Response 200 true None (Some 1%nat)
      (TasksData [Task 1 (lit "Learn Node.js") (lit "Complete Node.js tutorial")
                    (lit "pending") (lit "high") [] []]) /\
  (serve (GET_tasks (Query.Make (JStr []) JUndefined))
     (initial_store [] [] [] [])).1 =
    Response 200 true None (Some 2%nat)
      (TasksData (tasks (initial_store [] [] [] []))).
Proof.
  split.
  - apply (list_applies_filters (initial_store [] [] [] [])
             (Query.Make (JStr (lit "PENDING")) JUndefined)).
    + right. by eexists.
    + by left.
  - apply (list_applies_filters (initial_store [] [] [] [])
             (Query.Make (JStr []) JUndefined)).
    + by right.
    + by left.
Defined.

(** ** Titles and descriptions *)

(** C8, the code at the failing input.  POST /api/tasks with the title
    "   " passes the check [!title] (a string of blanks is truthy), is
    answered 201 and stores a task whose title, after [trim], is the empty
    string; no ValidationError is raised.  PUT with such a title empties
    the title of an existing task in the same way.  So a reachable store
    holds a task with an empty title. *)
Theorem blank_title_is_accepted :
  serve (POST_tasks (Body.Make (JStr (lit "   ")) (JStr (lit "x")) JUndefined JUndefined)
           (lit "t1") (lit "t2"))
        (initial_store [] [] [] []) =
    (Response 201 true (Some "Task created successfully"%string) None
       (TaskData (Task 3 [] (lit "x") (lit "pending") (lit "medium") (lit "t1") (lit "t2"))),
     Store (tasks (initial_store [] [] [] []) ++
              [Task 3 [] (lit "x") (lit "pending") (lit "medium") (lit "t1") (lit "t2")])
           4) /\
  (exists t, (serve (PUT_task (lit "1")
                  (Body.Make (JStr (lit " ")) JUndefined JUndefined JUndefined)
                  (lit "t3"))
               (initial_store [] [] [] [])).1 =
             Response 200 true (Some "Task updated successfully"%string) None (TaskData t)
             /\ title t = []) /\
  (exists s t, reachable s /\ t ∈ tasks s /\ title t = []).
Proof.
  split_and!.
  - reflexivity.
  - exists (Task 1 [] (lit "Complete Node.js tutorial") (lit "pending")
              (lit "high") [] (lit "t3")).
    split; reflexivity.
  - exists (serve (POST_tasks (Body.Make (JStr (lit "   ")) (JStr (lit "x"))
                                 JUndefined JUndefined) (lit "t1") (lit "t2"))
                  (initial_store [] [] [] [])).2.
    exists (Task 3 [] (lit "x") (lit "pending") (lit "medium") (lit "t1") (lit "t2")).
    split; [apply reachable_serve, reachable_init|].
    split; [|reflexivity].
    apply list_elem_of_further, list_elem_of_further, list_elem_of_here.
Qed.

(** ** Validation failures of Update *)

Lemma serve_PUT_task_outcome s idp b now :
  serve (PUT_task idp b now) s =
    match put_task idp b now s with
    | (Normal res, s') => (res, s')
    | (Throw, s') => (internal_error, s')
    end.
Proof. done. Qed.

(** C9.  An Update answered with a ValidationError leaves the whole store
    as it was, [updatedAt] of the addressed task included.  For an existing
    task id this is the answer whenever the status is a non-empty string
    that is not, up to case, pending, in-progress or completed; and
    whenever the status is not supplied or legal and the priority is a
    non-empty string that is not, up to case, low, medium or high. *)
Theorem update_validation_atomic (s : store) (idp : jsstring) (b : Body.t)
    (now : timestamp) :
  (is_ValidationError (serve (PUT_task idp b now) s).1 ->
     (serve (PUT_task idp b now) s).2 = s) /\
  ((exists t, t ∈ tasks s /\ parseInt idp = Some (id t)) ->
     (forall c w,
        Body.status b = JStr (c :: w) ->
        ~ ci_member (c :: w) ["pending"; "in-progress"; "completed"]%string ->
        serve (PUT_task idp b now) s =
          (bad_request "Status must be: pending, in-progress, or completed", s)) /\
     (forall c w,
        (truthy (Body.status b) = false \/
         exists st, Body.status b = JStr st /\
                    ci_member st ["pending"; "in-progress"; "completed"]%string) ->
        Body.priority b = JStr (c :: w) ->
        ~ ci_member (c :: w) ["low"; "medium"; "high"]%string ->
        serve (PUT_task idp b now) s =
          (bad_request "Priority must be: low, medium, or high", s))).
Proof.
  split.
  - rewrite serve_PUT_task_outcome. unfold is_ValidationError.
    pose proof (put_task_cases idp b now s) as Hcases.
    destruct (findTaskById (tasks s) idp) as [[i t]|].
    + by destruct Hcases.
    + by rewrite Hcases.
  - intros Hex. destruct (findTaskById_existing _ _ Hex) as (i & t & Hfind).
    destruct b as [bt bd bs bp].
    cbn [Body.title Body.description Body.status Body.priority].
    split.
    + intros c w -> Hbad. rewrite ci_member_status in Hbad.
      apply not_true_is_false in Hbad.
      unfold serve, handler, put_task.
      cbn [Body.title Body.description Body.status Body.priority].
      js_simpl. rewrite Hfind. cbn [truthy call_toLowerCase]. js_simpl.
      by rewrite Hbad.
    + intros c w Hst -> Hbad. rewrite ci_member_priority in Hbad.
      apply not_true_is_false in Hbad.
      unfold serve, handler, put_task.
      cbn [Body.title Body.description Body.status Body.priority].
      js_simpl. rewrite Hfind.
      destruct Hst as [Hst | (st & -> & Hst)].
      * rewrite Hst. cbn [truthy call_toLowerCase]. js_simpl. by rewrite Hbad.
      * apply ci_member_status in Hst.
        destruct st as [|c0 st]; cbn [truthy call_toLowerCase]; js_simpl;
          rewrite ?Hst; cbn [negb]; by rewrite Hbad.
Qed.

Lemma update_validation_atomic_witness :
  serve (PUT_task (lit "1")
           (Body.Make (JStr (lit "New title")) JUndefined (JStr (lit "done")) JUndefined)
           (lit "now"))
        (initial_store [] [] [] []) =
    (bad_request "Status must be: pending, in-progress, or completed",
     initial_store [] [] [] []) /\
  serve (PUT_task (lit "1")
           (Body.Make JUndefined JUndefined (JStr (lit "Completed")) (JStr (lit "urgent")))
           (lit "now"))
        (initial_store [] [] [] []) =
    (bad_request "Priority must be: low, medium, or high",
     initial_store [] [] [] []).
Proof.
  split.
  - eapply (update_validation_atomic (initial_store [] [] [] []) (lit "1")
              (Body.Make (JStr (lit "New title")) JUndefined (JStr (lit "done")) JUndefined)).
    + eexists. split; [apply list_elem_of_here | reflexivity].
    + reflexivity.
    + rewrite ci_member_status. vm_compute. discriminate.
  - eapply (update_validation_atomic (initial_store [] [] [] []) (lit "1")
              (Body.Make JUndefined JUndefined (JStr (lit "Completed")) (JStr (lit "urgent")))).
    + eexists. split; [apply list_elem_of_here | reflexivity].
    + right. eexists. split; [reflexivity|].
      apply Exists_cons_tl, Exists_cons_tl, Exists_cons_hd. reflexivity.
    + reflexivity.
    + rewrite ci_member_priority. vm_compute. discriminate.
Defined.

(** ** Ids without gaps *)

(** What one request does to the counter: it announces the counter's value
    and advances it by one, or announces nothing and leaves it, unless the
    handler threw. *)
Lemma serve_counter r s :
  code (serve r s).1 = 500%nat \/
  (issued_id (serve r s).1 = Some (nextId s) /\
   nextId (serve r s).2 = nextId s + 1) \/
  (issued_id (serve r s).1 = None /\ nextId (serve r s).2 = nextId s).
Proof.
  destruct r as [q|idp|b n1 n2|idp b now|idp|].
  - right. right. split.
    + destruct (issued_id _) as [n|] eqn:Hn; [|done].
      apply serve_issued in Hn as [_ Hn].
      rewrite serve_GET_tasks_store in Hn. lia.
    + by rewrite serve_GET_tasks_store.
  - right. right. rewrite serve_GET_task.
    by destruct (findTaskById (tasks s) idp) as [[i t]|].
  - unfold serve, handler.
    destruct (post_tasks_cases b n1 n2 s) as [msg| | |t Hid Hok]; cbn; auto.
    right. left. by rewrite Hid.
  - rewrite serve_PUT_task_outcome.
    pose proof (put_task_cases idp b now s) as Hcases.
    destruct (findTaskById (tasks s) idp) as [[i t]|].
    + destruct Hcases; cbn; auto.
    + rewrite Hcases. cbn. auto.
  - right. right. rewrite serve_DELETE_task.
    by destruct (findTaskById (tasks s) idp) as [[i t]|].
  - right. right. done.
Qed.

(** A Create rejected by validation leaves the counter alone, and a run in
    which no handler throws hands out consecutive ids. *)
Lemma issued_ids_consecutive rs s :
  Forall (fun res => ~ is_InternalError res) (run rs s).1 ->
  issued_ids (run rs s).1
    = seqZ (nextId s) (Z.of_nat (length (issued_ids (run rs s).1))) /\
  nextId (run rs s).2
    = nextId s + Z.of_nat (length (issued_ids (run rs s).1)).
Proof.
  revert s. induction rs as [|r rs IH]; intros s.
  - intros _. cbn. split; [done | lia].
  - rewrite run_cons. cbn [fst snd]. intros [Hr Hrs]%Forall_cons.
    destruct (IH _ Hrs) as [Hids Hnext]. rewrite issued_ids_cons.
    destruct (serve_counter r s) as [H500 | [[Hi Hn] | [Hi Hn]]];
      [by destruct Hr| |];
      rewrite Hi.
    + cbn [length]. rewrite Nat2Z.inj_succ.
      rewrite seqZ_cons by lia. rewrite Z.pred_succ.
      split; [|lia]. f_equal. by rewrite Hids at 1; rewrite Hn.
    + split; [|lia]. by rewrite Hids at 1; rewrite Hn.
Qed.

(** C10, the code at the failing input.  POST /api/tasks with the JSON
    number 5 as title passes both validations, evaluates [nextId++] and
    then throws at [title.trim()]: the answer is 500, no task is added,
    and the counter has moved from 3 to 4.  The next successful Create is
    given id 4, so id 3 is never issued. *)
Theorem failed_create_consumes_id :
  serve (POST_tasks (Body.Make (JNum 5) (JStr (lit "x")) JUndefined JUndefined) [] [])
        (initial_store [] [] [] [])
    = (internal_error, Store (tasks (initial_store [] [] [] [])) 4) /\
  issued_ids
    (run [POST_tasks (Body.Make (JNum 5) (JStr (lit "x")) JUndefined JUndefined) [] [];
          POST_tasks (Body.Make (JStr (lit "A")) (JStr (lit "B")) JUndefined JUndefined) [] []]
         (initial_store [] [] [] [])).1
    = [4].
Proof. split; reflexivity. Qed.

(** * Further properties of the handlers *)

(** ** Update, field by field *)

Lemma apply_field_falsy v norm set t :
  truthy v = false -> apply_field v norm set t = t.
Proof. by destruct v as [| | | |[|c w]| |]. Qed.

Ltac field_cases_in v Hout :=
  let H := fresh "H" in let H' := fresh "H" in let H'' := fresh "H" in
  let c := fresh "c" in let x := fresh "x" in
  destruct (jsval_cases v) as [H | [(c & x & ->) | (H & H' & H'')]];
  rewrite ?H, ?H', ?H'' in Hout; cbn [truthy call_toLowerCase call_trim] in Hout;
  js_simpl.

Lemma put_task_result idp b now s i t out :
  findTaskById (tasks s) idp = Some (i, t) ->
  put_task idp b now s = out ->
  (exists msg, out = (Normal (bad_request msg), s)) \/
  (exists s', out = (Throw, s')) \/
  out = (Normal (Response 200 true (Some "Task updated successfully"%string) None
                   (TaskData (updated b now t))),
         Store (<[i := updated b now t]> (tasks s)) (nextId s)).
Proof.
  intros Hfind Hout. unfold put_task in Hout. destruct b as [ti de st pr].
  unfold updated.
  cbn [Body.title Body.description Body.status Body.priority] in *.
  js_simpl. rewrite Hfind in Hout.
  apply findTaskById_Some in Hfind as (Hi & _ & _).
  field_cases_in st Hout; [| |by subst; eauto];
    [| destruct (includes [lit "pending"; _; _] _) eqn:Hst; cbn [negb] in Hout;
       [|by subst; eauto] ];
    (field_cases_in pr Hout; [| |by subst; eauto];
     [| destruct (includes [lit "low"; _; _] _) eqn:Hpr; cbn [negb] in Hout;
        [|by subst; eauto] ]).
  all: field_cases_in ti Hout; [| |by subst; eauto].
  all: field_cases_in de Hout; [| |by subst; eauto].
  all: rewrite ?list_alter_alter_eq, ?list_lookup_alter_eq, ?Hi in Hout;
       cbn [fmap option_fmap option_map] in Hout.
  all: right; right; subst out.
  all: repeat match goal with
       | H : truthy ?v = false |- _ => rewrite (apply_field_falsy v) by exact H
       end; cbn [apply_field].
  all: by rewrite (alter_as_insert _ _ _ t Hi).
Qed.

Lemma updated_eq b now t :
  updated b now t =
    Task (id t)
      (chosen (Body.title b) trim (title t))
      (chosen (Body.description b) trim (description t))
      (chosen (Body.status b) toLowerCase (status t))
      (chosen (Body.priority b) toLowerCase (priority t))
      (createdAt t) now.
Proof.
  unfold updated. destruct b as [bt bd bs bp].
  cbn [Body.title Body.description Body.status Body.priority].
  assert (H1 : apply_field bt trim set_title t =
    Task (id t) (chosen bt trim (title t)) (description t) (status t)
      (priority t) (createdAt t) (updatedAt t)).
  { destruct t. by destruct bt as [| | | |[|c w]| |]. }
  rewrite H1.
  assert (H2 : forall u, apply_field bd trim set_description u =
    Task (id u) (title u) (chosen bd trim (description u)) (status u)
      (priority u) (createdAt u) (updatedAt u)).
  { intros u. destruct u. by destruct bd as [| | | |[|c w]| |]. }
  rewrite H2.
  assert (H3 : forall u, apply_field bs toLowerCase set_status u =
    Task (id u) (title u) (description u) (chosen bs toLowerCase (status u))
      (priority u) (createdAt u) (updatedAt u)).
  { intros u. destruct u. by destruct bs as [| | | |[|c w]| |]. }
  rewrite H3.
  assert (H4 : forall u, apply_field bp toLowerCase set_priority u =
    Task (id u) (title u) (description u) (status u)
      (chosen bp toLowerCase (priority u)) (createdAt u) (updatedAt u)).
  { intros u. destruct u. by destruct bp as [| | | |[|c w]| |]. }
  rewrite H4. done.
Qed.

Lemma chosen_twice v norm old : chosen v norm (chosen v norm old) = chosen v norm old.
Proof. by destruct v as [| | | |[|c w]| |]. Qed.

Lemma updated_twice b now t : updated b now (updated b now t) = updated b now t.
Proof. rewrite !updated_eq. cbn. by rewrite !chosen_twice. Qed.

Lemma serve_PUT_updates s idp b now i t :
  findTaskById (tasks s) idp = Some (i, t) ->
  falsy_or_text (Body.title b) -> falsy_or_text (Body.description b) ->
  falsy_or_legal (Body.status b) ["pending"; "in-progress"; "completed"]%string ->
  falsy_or_legal (Body.priority b) ["low"; "medium"; "high"]%string ->
  serve (PUT_task idp b now) s =
    (Response 200 true (Some "Task updated successfully"%string) None
       (TaskData (updated b now t)),
     Store (<[i := updated b now t]> (tasks s)) (nextId s)).
Proof.
  intros Hfind Hti Hde Hst Hpr. rewrite serve_PUT_task_outcome.
  destruct (put_task_result idp b now s i t _ Hfind eq_refl)
    as [[msg Hout] | [[s1 Hout] | Hout]]; [| |by rewrite Hout]; exfalso;
    unfold put_task in Hout; destruct b as [bt bd bs bp];
    cbn [Body.title Body.description Body.status Body.priority] in *;
    js_simpl; rewrite Hfind in Hout.
  all: destruct Hst as [Hst | (ws & -> & Hst%ci_member_status)];
       [rewrite Hst in Hout; js_simpl
       |destruct ws as [|cs ws]; cbn [truthy call_toLowerCase] in Hout;
        js_simpl; rewrite ?Hst in Hout; cbn [negb] in Hout].
  all: destruct Hpr as [Hpr | (wp & -> & Hpr%ci_member_priority)];
       [rewrite Hpr in Hout; js_simpl
       |destruct wp as [|cp wp]; cbn [truthy call_toLowerCase] in Hout;
        js_simpl; rewrite ?Hpr in Hout; cbn [negb] in Hout].
  all: destruct Hti as [Hti | (wt & ->)];
       [rewrite Hti in Hout; js_simpl
       |destruct wt as [|ct wt]; cbn [truthy call_trim] in Hout; js_simpl].
  all: destruct Hde as [Hde | (wd & ->)];
       [rewrite Hde in Hout; js_simpl
       |destruct wd as [|cd wd]; cbn [truthy call_trim] in Hout; js_simpl].
  all: apply findTaskById_Some in Hfind as (Hi & _ & _).
  all: rewrite ?list_alter_alter_eq, ?list_lookup_alter_eq, ?Hi in Hout;
       cbn [fmap option_fmap option_map] in Hout; discriminate.
Qed.

(** X1.  A PUT that answers 200 has replaced the first task whose id is
    [parseInt(id)] by [updated b now] of it, and answers with that record:
    each of title and description that is a non-empty string is stored
    trimmed, each of status and priority that is a non-empty string is
    stored in lower case, [updatedAt] is the current time, every other
    field and every other task is as before.  It does answer 200 whenever
    title and description are falsy or strings and status and priority are
    falsy or legal up to case. *)
Theorem update_applies_fields (s : store) (idp : jsstring) (b : Body.t)
    (now : timestamp) (i : nat) (t : task) :
  findTaskById (tasks s) idp = Some (i, t) ->
  (forall res s',
     serve (PUT_task idp b now) s = (res, s') -> code res = 200%nat ->
     res = Response 200 true (Some "Task updated successfully"%string) None
             (TaskData (updated b now t)) /\
     s' = Store (<[i := updated b now t]> (tasks s)) (nextId s)) /\
  (falsy_or_text (Body.title b) -> falsy_or_text (Body.description b) ->
   falsy_or_legal (Body.status b) ["pending"; "in-progress"; "completed"]%string ->
   falsy_or_legal (Body.priority b) ["low"; "medium"; "high"]%string ->
   serve (PUT_task idp b now) s =
     (Response 200 true (Some "Task updated successfully"%string) None
        (TaskData (updated b now t)),
      Store (<[i := updated b now t]> (tasks s)) (nextId s))) /\
  updated b now t =
    Task (id t)
      (chosen (Body.title b) trim (title t))
      (chosen (Body.description b) trim (description t))
      (chosen (Body.status b) toLowerCase (status t))
      (chosen (Body.priority b) toLowerCase (priority t))
      (createdAt t) now.
Proof.
  intros Hfind.
  assert (Hfirst : forall res s',
     serve (PUT_task idp b now) s = (res, s') -> code res = 200%nat ->
     res = Response 200 true (Some "Task updated successfully"%string) None
             (TaskData (updated b now t)) /\
     s' = Store (<[i := updated b now t]> (tasks s)) (nextId s)).
  { intros res s' Hserve Hcode. rewrite serve_PUT_task_outcome in Hserve.
    destruct (put_task_result idp b now s i t _ Hfind eq_refl)
      as [[msg Hout] | [[s1 Hout] | Hout]]; rewrite Hout in Hserve;
      simplify_eq; done. }
  split; [exact Hfirst|]. split; [|apply updated_eq].
  intros Hti Hde Hst Hpr. by apply serve_PUT_updates.
Qed.

Lemma update_applies_fields_witness :
  serve (PUT_task (lit "1")
           (Body.Make JUndefined (JStr []) (JStr (lit "Completed")) JNull)
           (lit "now"))
        (initial_store [] [] [] []) =
    (Response 200 true (Some "Task updated successfully"%string) None
       (TaskData (Task 1 (lit "Learn Node.js") (lit "Complete Node.js tutorial")
                    (lit "completed") (lit "high") [] (lit "now"))),
     Store (<[0%nat := Task 1 (lit "Learn Node.js") (lit "Complete Node.js tutorial")
                          (lit "completed") (lit "high") [] (lit "now")]>
              (tasks (initial_store [] [] [] [])))
           3).
Proof.
  apply (update_applies_fields (initial_store [] [] [] []) (lit "1")
           (Body.Make JUndefined (JStr []) (JStr (lit "Completed")) JNull)
           (lit "now") 0%nat
           (Task 1 (lit "Learn Node.js") (lit "Complete Node.js tutorial")
              (lit "pending") (lit "high") [] [])).
  - reflexivity.
  - left. reflexivity.
  - right. eexists. reflexivity.
  - right. eexists. split; [reflexivity|].
    apply Exists_cons_tl, Exists_cons_tl, Exists_cons_hd. reflexivity.
  - left. reflexivity.
Defined.

Lemma findTaskById_intro (l : list task) idp i t :
  l !! i = Some t -> parseInt idp = Some (id t) ->
  (forall j y, l !! j = Some y -> (j < i)%nat -> parseInt idp <> Some (id y)) ->
  findTaskById l idp = Some (i, t).
Proof.
  intros Hi Hp Hmin. unfold findTaskById. apply list_find_Some.
  split; [done|]. split.
  - rewrite Hp. apply Z.eqb_refl.
  - intros j y Hj Hlt Hy. apply (Hmin j y Hj Hlt).
    unfold strict_eq_num in Hy. destruct (parseInt idp) as [n|]; [|done].
    apply Z.eqb_eq in Hy. congruence.
Qed.

Lemma apply_field_id v norm set t :
  (forall x t0, id (set x t0) = id t0) -> id (apply_field v norm set t) = id t.
Proof. intros Hset. destruct v as [| | | |[|c w]| |]; simpl; auto. Qed.

Lemma updated_id b now t : id (updated b now t) = id t.
Proof. unfold updated. cbn [set_updatedAt id]. by rewrite !apply_field_id. Qed.

Lemma findTaskById_insert (l : list task) idp idp' i t u :
  findTaskById l idp = Some (i, t) -> id u = id t ->
  parseInt idp' = parseInt idp ->
  findTaskById (<[i := u]> l) idp' = Some (i, u).
Proof.
  intros (Hi & Hp & Hmin)%findTaskById_Some Hid Hp'.
  apply findTaskById_intro.
  - apply list_lookup_insert_eq. by eapply lookup_lt_Some.
  - congruence.
  - intros j y Hj Hlt. rewrite list_lookup_insert_ne in Hj by lia.
    rewrite Hp'. by eapply Hmin.
Qed.

(** X2.  Read your writes: after a PUT answered 200, GET with the same
    identifier (or any that parses to the same number) answers 200 with
    exactly the record the PUT returned, and changes nothing. *)
Theorem update_then_get (s : store) (idp idp' : jsstring) (b : Body.t)
    (now : timestamp) (res : response) (s' : store) :
  serve (PUT_task idp b now) s = (res, s') -> code res = 200%nat ->
  parseInt idp' = parseInt idp ->
  exists u, data res = TaskData u /\
    serve (GET_task idp') s' = (Response 200 true None None (TaskData u), s').
Proof.
  intros Hput Hcode Hp.
  destruct (findTaskById (tasks s) idp) as [[i t]|] eqn:Hfind.
  - destruct (put_task_result idp b now s i t _ Hfind eq_refl)
      as [[msg Hout] | [[s1 Hout] | Hout]];
      rewrite serve_PUT_task_outcome, Hout in Hput; simplify_eq; try done.
    eexists. split; [reflexivity|]. rewrite serve_GET_task. cbn [tasks].
    by rewrite (findTaskById_insert _ idp idp' i t _ Hfind (updated_id b now t) Hp).
  - pose proof (put_task_cases idp b now s) as Hnf. rewrite Hfind in Hnf.
    rewrite serve_PUT_task_outcome, Hnf in Hput. by simplify_eq.
Qed.

Lemma update_then_get_witness :
  exists u,
    data (serve (PUT_task (lit "2") (Body.Make (JStr (lit " Ship it ")) JUndefined
                                        JUndefined (JStr (lit "HIGH")))
                   (lit "now")) (initial_store [] [] [] [])).1 = TaskData u /\
    serve (GET_task (lit "2.0"))
          (serve (PUT_task (lit "2") (Body.Make (JStr (lit " Ship it ")) JUndefined
                                        JUndefined (JStr (lit "HIGH")))
                    (lit "now")) (initial_store [] [] [] [])).2
      = (Response 200 true None None (TaskData u),
         (serve (PUT_task (lit "2") (Body.Make (JStr (lit " Ship it ")) JUndefined
                                        JUndefined (JStr (lit "HIGH")))
                    (lit "now")) (initial_store [] [] [] [])).2).
Proof.
  apply (update_then_get (initial_store [] [] [] []) (lit "2") (lit "2.0")
           (Body.Make (JStr (lit " Ship it ")) JUndefined JUndefined (JStr (lit "HIGH")))
           (lit "now")).
  - reflexivity.
  - reflexivity.
  - reflexivity.
Defined.

Lemma truthy_non_string_calls v :
  truthy_non_string v -> call_trim v = throw /\ call_toLowerCase v = throw.
Proof. intros [_ Hns]. destruct v; try done. by destruct (Hns s). Qed.

Lemma put_task_throws idp b now s i t s' :
  findTaskById (tasks s) idp = Some (i, t) ->
  put_task idp b now s = (Throw, s') ->
  s' = s \/
  exists c w, Body.title b = JStr (c :: w) /\
    truthy_non_string (Body.description b) /\
    s' = Store (<[i := set_title (trim (c :: w)) t]> (tasks s)) (nextId s).
Proof.
  intros Hfind Hout. unfold put_task in Hout. destruct b as [ti de st pr].
  cbn [Body.title Body.description Body.status Body.priority] in *.
  js_simpl. rewrite Hfind in Hout.
  apply findTaskById_Some in Hfind as (Hi & _ & _).
  field_cases_in st Hout; [| |left; congruence];
    [| destruct (includes [lit "pending"; _; _] _) eqn:Hst; cbn [negb] in Hout;
       [|discriminate] ];
    (field_cases_in pr Hout; [| |left; congruence];
     [| destruct (includes [lit "low"; _; _] _) eqn:Hpr; cbn [negb] in Hout;
        [|discriminate] ]).
  all: field_cases_in ti Hout; [| |left; congruence].
  all: field_cases_in de Hout.
  all: rewrite ?list_alter_alter_eq, ?list_lookup_alter_eq, ?Hi in Hout;
       cbn [fmap option_fmap option_map] in Hout; try discriminate.
  all: try (left; congruence).
  all: right; eexists _, _; split; [reflexivity|].
  all: split;
       [split; [assumption|]; intros w0 ->;
        match goal with
        | H : call_trim (JStr _) = _ |- _ =>
            apply (f_equal (fun f => (f (Store [] 0)).1)) in H; discriminate
        end|].
  all: rewrite <- (alter_as_insert _ _ _ t Hi); congruence.
Qed.

(** X3.  PUT is not atomic when it throws.  If the title is a non-empty
    string, the description a truthy value that is not a string, and
    status and priority are falsy, the answer is 500, yet the title of the
    task has been overwritten; [updatedAt] has not been refreshed.  And
    this is the only trace a PUT answered 500 can leave: the store is
    otherwise exactly as before. *)
Theorem update_error_keeps_title_change (s : store) (idp : jsstring)
    (b : Body.t) (now : timestamp) (i : nat) (t : task) :
  findTaskById (tasks s) idp = Some (i, t) ->
  (forall c w,
     Body.title b = JStr (c :: w) ->
     truthy_non_string (Body.description b) ->
     truthy (Body.status b) = false -> truthy (Body.priority b) = false ->
     serve (PUT_task idp b now) s =
       (internal_error,
        Store (<[i := Task (id t) (trim (c :: w)) (description t) (status t)
                         (priority t) (createdAt t) (updatedAt t)]> (tasks s))
              (nextId s))) /\
  (forall res s',
     serve (PUT_task idp b now) s = (res, s') -> code res = 500%nat ->
     s' = s \/
     exists w, Body.title b = JStr w /\
       s' = Store (<[i := Task (id t) (trim w) (description t) (status t)
                          (priority t) (createdAt t) (updatedAt t)]> (tasks s))
                  (nextId s)).
Proof.
  intros Hfind. split.
  - intros c w Hti Hde Hst Hpr.
    destruct (truthy_non_string_calls _ Hde) as [Htrim _].
    destruct Hde as [Hde _].
    pose proof (findTaskById_Some _ _ _ _ Hfind) as (Hi & _ & _).
    unfold serve, handler, put_task. destruct b as [bt bd bs bp].
    cbn [Body.title Body.description Body.status Body.priority] in *.
    subst bt. js_simpl. rewrite Hfind, Hst, Hpr, Hde, Htrim.
    cbn [truthy call_trim]. js_simpl.
    by rewrite (alter_as_insert _ _ _ t Hi).
  - intros res s' Hserve Hcode. rewrite serve_PUT_task_outcome in Hserve.
    destruct (put_task idp b now s) as [[res0|] s0] eqn:Hout.
    + injection Hserve as <- <-.
      destruct (put_task_result idp b now s i t _ Hfind Hout)
        as [[msg H] | [[s1 H] | H]]; simplify_eq; done.
    + injection Hserve as <- <-.
      destruct (put_task_throws idp b now s i t s0 Hfind Hout)
        as [-> | (c & w & Hti & _ & ->)]; [by left|].
      right. by exists (c :: w).
Qed.

Lemma update_error_keeps_title_change_witness :
  serve (PUT_task (lit "1")
           (Body.Make (JStr (lit "Renamed")) (JNum 7) JUndefined JUndefined)
           (lit "now"))
        (initial_store [] [] [] []) =
    (internal_error,
     Store (<[0%nat := Task 1 (lit "Renamed") (lit "Complete Node.js tutorial")
                          (lit "pending") (lit "high") [] []]>
              (tasks (initial_store [] [] [] [])))
           3).
Proof.
  apply (proj1 (update_error_keeps_title_change (initial_store [] [] [] []) (lit "1")
            (Body.Make (JStr (lit "Renamed")) (JNum 7) JUndefined JUndefined)
            (lit "now") 0%nat
            (Task 1 (lit "Learn Node.js") (lit "Complete Node.js tutorial")
               (lit "pending") (lit "high") [] []) eq_refl)
           82%N (lit "enamed")).
  - reflexivity.
  - split; [reflexivity | discriminate].
  - reflexivity.
  - reflexivity.
Defined.

(** ** Identifiers written in decimal *)

Lemma decimal_digit_cases c :
  is_decimal_digit c = true ->
  c ∈ [48; 49; 50; 51; 52; 53; 54; 55; 56; 57]%N.
Proof.
  unfold is_decimal_digit. intros [H1 H2]%andb_true_iff.
  apply N.leb_le in H1, H2.
  assert (Hc : (c = 48 \/ c = 49 \/ c = 50 \/ c = 51 \/ c = 52 \/
                c = 53 \/ c = 54 \/ c = 55 \/ c = 56 \/ c = 57)%N) by lia.
  rewrite !elem_of_cons. tauto.
Qed.

Lemma decimal_digit_facts c :
  is_decimal_digit c = true ->
  isWhiteSpace c = false /\ (c =? 45)%N = false /\ (c =? 43)%N = false /\
  (c =? 120)%N = false /\ (c =? 88)%N = false /\
  radix_digit 10 c = Some (Z.of_N c - 48).
Proof.
  intros Hc%decimal_digit_cases.
  repeat (apply elem_of_cons in Hc as [-> | Hc]; [by vm_compute|]).
  by apply elem_of_nil in Hc.
Qed.

Lemma take_digits_decimal (s : jsstring) :
  Forall (fun c => is_decimal_digit c = true) s ->
  take_digits 10 s = map (fun c => Z.of_N c - 48) s.
Proof.
  induction 1 as [|c s Hc Hs IH]; [done|].
  cbn [take_digits map]. destruct (decimal_digit_facts c Hc) as (_&_&_&_&_&->).
  by rewrite IH.
Qed.

(** A numeral made of decimal digits only is read by [parseInt] as its
    positional value. *)
Lemma parseInt_digits (s : jsstring) :
  s <> [] -> Forall (fun c => is_decimal_digit c = true) s ->
  parseInt s = Some (math_int 10 (map (fun c => Z.of_N c - 48) s)).
Proof.
  intros Hne Hall. destruct s as [|c s]; [done|].
  pose proof (Forall_inv Hall) as Hc.
  destruct (decimal_digit_facts c Hc) as (Hws & H45 & H43 & _).
  unfold parseInt. cbn [trimStart]. rewrite Hws, H45, H43.
  assert (Hradix : (let '(R, S2) :=
      match c :: s with
      | 48%N :: x :: r =>
          if ((x =? 120) || (x =? 88))%N then (16, r) else (10, c :: s)
      | _ => (10, c :: s)
      end in
      match take_digits R S2 with
      | [] => None
      | ds => Some (1 * math_int R ds)
      end) =
    match take_digits 10 (c :: s) with
    | [] => None
    | ds => Some (1 * math_int 10 ds)
    end).
  { apply decimal_digit_cases in Hc. destruct s as [|x r].
    - repeat (apply elem_of_cons in Hc as [-> | Hc]; [reflexivity|]).
      by apply elem_of_nil in Hc.
    - apply Forall_inv_tail, Forall_inv in Hall.
      destruct (decimal_digit_facts x Hall) as (_&_&_& Hx120 & Hx88 & _).
      repeat (apply elem_of_cons in Hc as [-> | Hc];
              [rewrite ?Hx120, ?Hx88; reflexivity|]).
      by apply elem_of_nil in Hc. }
  rewrite Hradix, (take_digits_decimal _ Hall). cbn [map].
  f_equal. lia.
Qed.

Lemma decimal_digits_spec fuel n acc :
  0 <= n -> (Z.to_nat n < fuel)%nat ->
  exists D, decimal_digits fuel n acc = D ++ acc /\ D <> [] /\
    Forall (fun c => is_decimal_digit c = true) D /\
    math_int 10 (map (fun c => Z.of_N c - 48) D) = n.
Proof.
  revert n acc. induction fuel as [|fuel IH]; intros n acc Hn Hfuel; [lia|].
  cbn [decimal_digits].
  assert (Hd : is_decimal_digit (Z.to_N (48 + n mod 10)) = true /\
               Z.of_N (Z.to_N (48 + n mod 10)) - 48 = n mod 10).
  { pose proof (Z.mod_pos_bound n 10 ltac:(lia)) as Hm.
    unfold is_decimal_digit. split; [|lia].
    apply andb_true_iff. split; apply N.leb_le; lia. }
  destruct Hd as [Hdig Hval].
  destruct (Z.ltb_spec n 10) as [Hlt|Hge].
  - exists [Z.to_N (48 + n mod 10)]. split; [done|]. split; [done|].
    split; [by constructor|]. unfold math_int. cbn [map fold_left].
    rewrite Hval. rewrite Z.mod_small by lia. lia.
  - destruct (IH (n / 10) (Z.to_N (48 + n mod 10) :: acc)) as (D & HD & _ & Hall & Hm).
    + apply Z.div_pos; lia.
    + assert (n / 10 < n) by (apply Z.div_lt; lia).
      assert (0 <= n / 10) by (apply Z.div_pos; lia). lia.
    + exists (D ++ [Z.to_N (48 + n mod 10)]). split_and!.
      * by rewrite HD, <- app_assoc.
      * by destruct D.
      * apply Forall_app. split; [done | by constructor].
      * unfold math_int in *. rewrite map_app, fold_left_app. cbn [map fold_left].
        rewrite Hm, Hval. pose proof (Z.div_mod n 10 ltac:(lia)). lia.
Qed.

Lemma parseInt_to_decimal n : 0 <= n -> parseInt (to_decimal n) = Some n.
Proof.
  intros Hn. unfold to_decimal.
  destruct (decimal_digits_spec (S (Z.to_nat n)) n [] Hn ltac:(lia))
    as (D & -> & Hne & Hall & Hval).
  rewrite app_nil_r, parseInt_digits by done. by rewrite Hval.
Qed.

(** ** Looking a task up by the id a response shows *)

Lemma effect_positive s s' :
  effect s s' ->
  Forall (fun t => 1 <= id t) (tasks s) /\ 1 <= nextId s ->
  Forall (fun t => 1 <= id t) (tasks s') /\ 1 <= nextId s'.
Proof.
  intros He [Hall Hn].
  destruct He as [| |t Hid Hok|i g [Hgid Hgen]|i]; cbn [tasks nextId].
  - done.
  - split; [done | lia].
  - split; [|lia]. apply Forall_app. split; [done|].
    apply Forall_singleton. lia.
  - split; [|done]. apply Forall_alter; [done|]. intros x _ Hx. by rewrite Hgid.
  - split; [|done]. by apply Forall_delete.
Qed.

Lemma reachable_positive s :
  reachable s -> Forall (fun t => 1 <= id t) (tasks s) /\ 1 <= nextId s.
Proof.
  induction 1 as [c1 u1 c2 u2|r s Hs IH].
  - cbn. split; [|lia]. repeat constructor; cbn; lia.
  - eapply effect_positive; [apply serve_effect | done].
Qed.

Lemma get_task_parsed s t idp :
  reachable s -> t ∈ tasks s -> parseInt idp = Some (id t) ->
  serve (GET_task idp) s = (Response 200 true None None (TaskData t), s).
Proof.
  intros Hs Ht Hp.
  pose proof (wf_NoDup s (reachable_wf s Hs)) as Hnd.
  destruct (findTaskById_unique (tasks s) idp t Hnd Ht Hp) as [i Hf].
  by rewrite serve_GET_task, Hf.
Qed.

(** X4.  In a reachable store every task is found under its id: GET with
    any identifier that [parseInt] reads as the id of a stored task answers
    200 with exactly that task, and the decimal numeral of the id, the form
    in which responses show it, is such an identifier. *)
Theorem get_by_decimal_id (s : store) (t : task) :
  reachable s -> t ∈ tasks s ->
  parseInt (to_decimal (id t)) = Some (id t) /\
  (forall idp, parseInt idp = Some (id t) ->
     serve (GET_task idp) s = (Response 200 true None None (TaskData t), s)).
Proof.
  intros Hs Ht. split; [|intros idp Hp; by apply get_task_parsed].
  destruct (reachable_positive s Hs) as [Hpos _].
  rewrite Forall_forall in Hpos. specialize (Hpos t Ht).
  apply parseInt_to_decimal. lia.
Qed.

Lemma get_by_decimal_id_witness :
  parseInt (lit "2") = Some 2 /\
  serve (GET_task (lit "2")) (initial_store [] [] [] []) =
    (Response 200 true None None
       (TaskData (Task 2 (lit "Build API") (lit "Create REST API for task management")
                    (lit "in-progress") (lit "medium") [] [])),
     initial_store [] [] [] []).
Proof.
  destruct (get_by_decimal_id (initial_store [] [] [] [])
              (Task 2 (lit "Build API") (lit "Create REST API for task management")
                 (lit "in-progress") (lit "medium") [] []))
    as [Hparse Hget].
  - apply reachable_init.
  - apply list_elem_of_further, list_elem_of_here.
  - split; [exact Hparse | apply Hget; reflexivity].
Defined.

(** ** Create *)

Lemma serve_POST_tasks_outcome s b n1 n2 :
  serve (POST_tasks b n1 n2) s =
    match post_tasks b n1 n2 s with
    | (Normal res, s') => (res, s')
    | (Throw, s') => (internal_error, s')
    end.
Proof. done. Qed.

(** X5.  Read your writes: in a reachable store, a Create answered 201
    has put the returned record last in the collection, and GET with an
    identifier that [parseInt] reads as its id answers 200 with that same
    record. *)
Theorem create_then_get (s : store) (b : Body.t) (now1 now2 : timestamp)
    (res : response) (s' : store) :
  reachable s ->
  serve (POST_tasks b now1 now2) s = (res, s') -> code res = 201%nat ->
  exists t, data res = TaskData t /\ last (tasks s') = Some t /\
    forall idp, parseInt idp = Some (id t) ->
      serve (GET_task idp) s' = (Response 200 true None None (TaskData t), s').
Proof.
  intros Hs Hpost Hcode.
  assert (Hs' : reachable s').
  { replace s' with (serve (POST_tasks b now1 now2) s).2 by by rewrite Hpost.
    by constructor. }
  rewrite serve_POST_tasks_outcome in Hpost.
  destruct (post_tasks_cases b now1 now2 s) as [msg| | |t Hid Hok];
    simplify_eq; try done.
  exists t. split; [done|]. split; [apply last_snoc|].
  intros idp Hp. apply get_task_parsed; [done| |done].
  cbn [tasks]. apply elem_of_app. right. apply list_elem_of_here.
Qed.

Lemma create_then_get_witness :
  exists t,
    data (serve (POST_tasks (Body.Make (JStr (lit "A")) (JStr (lit "B")) JUndefined JUndefined)
                   (lit "t1") (lit "t2")) (initial_store [] [] [] [])).1 = TaskData t /\
    last (tasks (serve (POST_tasks (Body.Make (JStr (lit "A")) (JStr (lit "B")) JUndefined JUndefined)
                   (lit "t1") (lit "t2")) (initial_store [] [] [] [])).2) = Some t /\
    forall idp, parseInt idp = Some (id t) ->
      serve (GET_task idp)
            (serve (POST_tasks (Body.Make (JStr (lit "A")) (JStr (lit "B")) JUndefined JUndefined)
                     (lit "t1") (lit "t2")) (initial_store [] [] [] [])).2 =
        (Response 200 true None None (TaskData t),
         (serve (POST_tasks (Body.Make (JStr (lit "A")) (JStr (lit "B")) JUndefined JUndefined)
                     (lit "t1") (lit "t2")) (initial_store [] [] [] [])).2).
Proof.
  apply (create_then_get (initial_store [] [] [] [])
           (Body.Make (JStr (lit "A")) (JStr (lit "B")) JUndefined JUndefined)
           (lit "t1") (lit "t2")).
  - apply reachable_init.
  - reflexivity.
  - reflexivity.
Defined.

(** X6.  A Create answered 400 leaves the collection and the counter
    exactly as they were.  A falsy title or description is answered 400
    "Title and description are required" whatever the priority is; with
    both truthy, a priority string that is not low, medium or high up to
    case, the empty string included, is answered 400 "Priority must be:
    low, medium, or high". *)
Theorem create_rejections (s : store) (b : Body.t) (now1 now2 : timestamp) :
  (forall res s',
     serve (POST_tasks b now1 now2) s = (res, s') -> code res = 400%nat ->
     s' = s) /\
  (truthy (Body.title b) = false \/ truthy (Body.description b) = false ->
   serve (POST_tasks b now1 now2) s =
     (bad_request "Title and description are required", s)) /\
  (forall p,
     truthy (Body.title b) = true -> truthy (Body.description b) = true ->
     Body.priority b = JStr p ->
     ~ ci_member p ["low"; "medium"; "high"]%string ->
     serve (POST_tasks b now1 now2) s =
       (bad_request "Priority must be: low, medium, or high", s)).
Proof.
  split_and!.
  - intros res s' Hpost Hcode. rewrite serve_POST_tasks_outcome in Hpost.
    destruct (post_tasks_cases b now1 now2 s) as [msg| | |t Hid Hok];
      simplify_eq; done.
  - intros Hfalsy. unfold serve, handler, post_tasks.
    destruct Hfalsy as [-> | ->]; cbn [negb orb]; [done|].
    by rewrite orb_true_r.
  - intros p Hti Hde Hp Hbad. rewrite ci_member_priority in Hbad.
    apply not_true_is_false in Hbad.
    unfold serve, handler, post_tasks. rewrite Hti, Hde, Hp.
    cbn [negb orb call_toLowerCase]. js_simpl. by rewrite Hbad.
Qed.

Lemma create_rejections_witness :
  serve (POST_tasks (Body.Make (JStr (lit "A")) JUndefined JUndefined JArray) [] [])
        (initial_store [] [] [] []) =
    (bad_request "Title and description are required", initial_store [] [] [] []) /\
  serve (POST_tasks (Body.Make (JStr (lit "A")) (JStr (lit "B")) JUndefined (JStr [])) [] [])
        (initial_store [] [] [] []) =
    (bad_request "Priority must be: low, medium, or high", initial_store [] [] [] []).
Proof.
  split.
  - apply (create_rejections (initial_store [] [] [] [])
             (Body.Make (JStr (lit "A")) JUndefined JUndefined JArray)).
    right. reflexivity.
  - eapply (create_rejections (initial_store [] [] [] [])
              (Body.Make (JStr (lit "A")) (JStr (lit "B")) JUndefined (JStr [])) [] []).
    + reflexivity.
    + reflexivity.
    + reflexivity.
    + rewrite ci_member_priority. vm_compute. discriminate.
Defined.

Lemma serve_POST_created (s : store) (b : Body.t) (now1 now2 : timestamp)
    (res : response) (s' : store) :
  serve (POST_tasks b now1 now2) s = (res, s') -> code res = 201%nat ->
  exists ti de,
    Body.title b = JStr ti /\ ti <> [] /\
    Body.description b = JStr de /\ de <> [] /\
    (Body.priority b = JUndefined \/
     exists p, Body.priority b = JStr p /\
               ci_member p ["low"; "medium"; "high"]%string) /\
    res = Response 201 true (Some "Task created successfully"%string) None
            (TaskData (Task (nextId s) (trim ti) (trim de) (lit "pending")
                         (requested_priority (Body.priority b)) now1 now2)) /\
    s' = Store (tasks s ++
                  [Task (nextId s) (trim ti) (trim de) (lit "pending")
                     (requested_priority (Body.priority b)) now1 now2])
               (nextId s + 1).
Proof.
  intros Hpost Hcode. rewrite serve_POST_tasks_outcome in Hpost.
  destruct (post_tasks b now1 now2 s) as [[res0|] s0] eqn:Hout;
    injection Hpost as <- <-; [|done].
  unfold post_tasks in Hout. destruct b as [ti de st pr].
  cbn [Body.title Body.description Body.status Body.priority] in *.
  field_cases_in ti Hout; cbn [negb orb] in Hout; js_simpl;
    [by simplify_eq/=| |];
    (field_cases_in de Hout; cbn [negb orb] in Hout; js_simpl;
     [by simplify_eq/=| |]).
  all: destruct pr as [| |bp|np|sp| |]; cbn [call_toLowerCase] in Hout; js_simpl;
    try discriminate.
  all: try (destruct (includes _ (toLowerCase _)) eqn:Hp; cbn [negb] in Hout;
            [|by simplify_eq/=]).
  all: try discriminate.
  - injection Hout as <- <-. eexists _, _. split_and!; try done. by left.
  - injection Hout as <- <-. eexists _, _. split_and!; try done.
    right. exists sp. split; [done|]. by apply ci_member_priority.
Qed.

(** X7.  A Create answered 201 was given a non-empty string as title and
    as description and a priority that is omitted or legal up to case, and
    what it stored and returned is exactly the record made of the counter's
    value, the trimmed title and description, "pending", the lower-cased
    priority (or "medium"), and the two clock readings, in that order, as
    [createdAt] and [updatedAt]; the counter has advanced by one. *)
Theorem create_success_exact (s : store) (b : Body.t) (now1 now2 : timestamp)
    (res : response) (s' : store) :
  serve (POST_tasks b now1 now2) s = (res, s') -> code res = 201%nat ->
  exists ti de,
    Body.title b = JStr ti /\ ti <> [] /\
    Body.description b = JStr de /\ de <> [] /\
    (Body.priority b = JUndefined \/
     exists p, Body.priority b = JStr p /\
               ci_member p ["low"; "medium"; "high"]%string) /\
    res = Response 201 true (Some "Task created successfully"%string) None
            (TaskData (Task (nextId s) (trim ti) (trim de) (lit "pending")
                         (requested_priority (Body.priority b)) now1 now2)) /\
    s' = Store (tasks s ++
                  [Task (nextId s) (trim ti) (trim de) (lit "pending")
                     (requested_priority (Body.priority b)) now1 now2])
               (nextId s + 1).
Proof. apply serve_POST_created. Qed.

Lemma create_success_exact_witness :
  exists ti de,
    JStr (lit " A ") = JStr ti /\ ti <> [] /\
    JStr (lit "B") = JStr de /\ de <> [] /\
    (JStr (lit "LOW") = JUndefined \/
     exists p, JStr (lit "LOW") = JStr p /\
               ci_member p ["low"; "medium"; "high"]%string) /\
    (serve (POST_tasks (Body.Make (JStr (lit " A ")) (JStr (lit "B")) JUndefined
                          (JStr (lit "LOW"))) (lit "t1") (lit "t2"))
           (initial_store [] [] [] [])).1 =
      Response 201 true (Some "Task created successfully"%string) None
        (TaskData (Task 3 (trim ti) (trim de) (lit "pending") (lit "low")
                     (lit "t1") (lit "t2"))) /\
    (serve (POST_tasks (Body.Make (JStr (lit " A ")) (JStr (lit "B")) JUndefined
                          (JStr (lit "LOW"))) (lit "t1") (lit "t2"))
           (initial_store [] [] [] [])).2 =
      Store (tasks (initial_store [] [] [] []) ++
               [Task 3 (trim ti) (trim de) (lit "pending") (lit "low")
                  (lit "t1") (lit "t2")]) 4.
Proof.
  apply (create_success_exact (initial_store [] [] [] [])
           (Body.Make (JStr (lit " A ")) (JStr (lit "B")) JUndefined (JStr (lit "LOW")))
           (lit "t1") (lit "t2")).
  - reflexivity.
  - reflexivity.
Defined.

(** ** Counting the Creates *)

Lemma serve_201 r s :
  code (serve r s).1 = 201%nat -> issued_id (serve r s).1 = Some (nextId s).
Proof.
  destruct (serve_counter r s) as [H500 | [[Hi _] | [Hi Hn]]]; intros H201.
  - congruence.
  - done.
  - exfalso. destruct r as [q|idp|b n1 n2|idp b now|idp|].
    + pose proof (get_tasks_code q s) as Hc. unfold serve, handler in H201.
      destruct (get_tasks q s) as [[res|] s']; cbn in *; [|done].
      rewrite (Hc res eq_refl) in H201. done.
    + rewrite serve_GET_task in H201.
      by destruct (findTaskById (tasks s) idp) as [[i t]|].
    + rewrite serve_POST_tasks_outcome in Hi, H201.
      destruct (post_tasks_cases b n1 n2 s) as [msg| | |t Hid Hok]; done.
    + rewrite serve_PUT_task_outcome in H201.
      pose proof (put_task_cases idp b now s) as Hcases.
      destruct (findTaskById (tasks s) idp) as [[i t]|].
      * by destruct Hcases.
      * by rewrite Hcases in H201.
    + rewrite serve_DELETE_task in H201.
      by destruct (findTaskById (tasks s) idp) as [[i t]|].
    + done.
Qed.

Lemma run_issued_count rs s :
  length (issued_ids (run rs s).1) =
  length (filter (fun res => code res = 201%nat) (run rs s).1).
Proof.
  revert s. induction rs as [|r rs IH]; intros s; [done|].
  rewrite run_cons. cbn [fst]. rewrite issued_ids_cons, filter_cons.
  case_decide as H201.
  - rewrite (serve_201 r s H201). cbn [length]. by rewrite IH.
  - destruct (issued_id (serve r s).1) as [n|] eqn:Hn; [|apply IH].
    exfalso. apply H201. unfold issued_id in Hn.
    destruct (code (serve r s).1) as [|k]; [done|].
    do 200 (destruct k as [|k]; [done|]). destruct k as [|k]; [done|].
    by destruct k.
Qed.

(** X8.  In a run in which no request is answered 500, the Creates
    answered 201 are given the ids 3, 4, 5, ... in order: the k-th of them
    gets k + 2, whatever other requests and rejected Creates lie between,
    and the counter ends at 3 plus their number. *)
Theorem kth_create_gets_next_id (c1 u1 c2 u2 : timestamp) (rs : list request) :
  Forall (fun res => ~ is_InternalError res)
         (run rs (initial_store c1 u1 c2 u2)).1 ->
  issued_ids (run rs (initial_store c1 u1 c2 u2)).1 =
    seqZ 3 (Z.of_nat (length (filter (fun res => code res = 201%nat)
                                (run rs (initial_store c1 u1 c2 u2)).1))) /\
  nextId (run rs (initial_store c1 u1 c2 u2)).2 =
    3 + Z.of_nat (length (filter (fun res => code res = 201%nat)
                            (run rs (initial_store c1 u1 c2 u2)).1)).
Proof.
  intros Hok. rewrite <- run_issued_count.
  by apply issued_ids_consecutive.
Qed.

Lemma kth_create_gets_next_id_witness :
  issued_ids
    (run [POST_tasks (Body.Make (JStr (lit "A")) (JStr (lit "B")) JUndefined JUndefined) [] [];
          DELETE_task (lit "3");
          POST_tasks (Body.Make JUndefined (JStr (lit "B")) JUndefined JUndefined) [] [];
          POST_tasks (Body.Make (JStr (lit "C")) (JStr (lit "D")) JUndefined JUndefined) [] []]
         (initial_store [] [] [] [])).1 = [3; 4] /\
  nextId
    (run [POST_tasks (Body.Make (JStr (lit "A")) (JStr (lit "B")) JUndefined JUndefined) [] [];
          DELETE_task (lit "3");
          POST_tasks (Body.Make JUndefined (JStr (lit "B")) JUndefined JUndefined) [] [];
          POST_tasks (Body.Make (JStr (lit "C")) (JStr (lit "D")) JUndefined JUndefined) [] []]
         (initial_store [] [] [] [])).2 = 5.
Proof.
  apply (kth_create_gets_next_id [] [] [] []
    [POST_tasks (Body.Make (JStr (lit "A")) (JStr (lit "B")) JUndefined JUndefined) [] [];
     DELETE_task (lit "3");
     POST_tasks (Body.Make JUndefined (JStr (lit "B")) JUndefined JUndefined) [] [];
     POST_tasks (Body.Make (JStr (lit "C")) (JStr (lit "D")) JUndefined JUndefined) [] []]).
  vm_compute. repeat constructor; discriminate.
Defined.

(** ** List *)

Lemma filter_cb_sublist cb l s r s' :
  filter_cb cb l s = (Normal r, s') -> r `sublist_of` l.
Proof.
  revert s r s'. induction l as [|t l IH]; intros s r s' Hrun.
  - injection Hrun as <- <-. constructor.
  - cbn [filter_cb] in Hrun. unfold mbind, js_bind in Hrun.
    destruct (cb t s) as [[keep|] s1]; [|done].
    destruct (filter_cb cb l s1) as [[rest|] s2] eqn:Hrest; [|done].
    injection Hrun as <- <-. specialize (IH _ _ _ Hrest).
    destruct keep; by constructor.
Qed.

Lemma js_bind_throws {A B} (m : js A) (k : A -> js B) s s' :
  m s = (Throw, s') -> (m ≫= k) s = (Throw, s').
Proof. intros H. unfold mbind, js_bind. by rewrite H. Qed.

Lemma filter_stage_outcome (f : task -> jsstring) v l s :
  (if truthy v
   then filter_cb (fun t => wanted ← call_toLowerCase v;
                   mret (bool_decide (toLowerCase (f t) = wanted))) l
   else mret l) s = (Throw, s) \/
  exists r, r `sublist_of` l /\
    (if truthy v
     then filter_cb (fun t => wanted ← call_toLowerCase v;
                     mret (bool_decide (toLowerCase (f t) = wanted))) l
     else mret l) s = (Normal r, s).
Proof.
  destruct (truthy v); [|right; by exists l].
  assert (Hro : read_only (filter_cb (fun t => wanted ← call_toLowerCase v;
                   mret (bool_decide (toLowerCase (f t) = wanted))) l)).
  { apply read_only_filter_cb. intros t.
    apply read_only_bind; [apply read_only_call_toLowerCase|].
    intros w. apply read_only_ret. }
  specialize (Hro s).
  destruct (filter_cb _ l s) as [[r|] s1] eqn:Hrun; cbn in Hro; subst s1.
  - right. exists r. split; [by eapply filter_cb_sublist | done].
  - by left.
Qed.

Lemma get_tasks_outcome q s :
  get_tasks q s = (Throw, s) \/
  exists l, l `sublist_of` tasks s /\
    get_tasks q s =
      (Normal (Response 200 true None (Some (length l)) (TasksData l)), s).
Proof.
  unfold get_tasks. erewrite js_bind_normal; [|reflexivity].
  destruct (filter_stage_outcome status (Query.status q) (tasks s) s)
    as [H1 | (l1 & Hl1 & H1)].
  { left. by erewrite js_bind_throws. }
  erewrite js_bind_normal; [|exact H1].
  destruct (filter_stage_outcome priority (Query.priority q) l1 s)
    as [H2 | (l2 & Hl2 & H2)].
  { left. by erewrite js_bind_throws. }
  erewrite js_bind_normal; [|exact H2].
  right. exists l2. split; [by etrans | done].
Qed.

(** X9.  GET /api/tasks, whatever its query parameters are, either
    answers 500 or answers 200 with a list that is the collection with
    some tasks left out, in collection order, and with [count] equal to
    the length of that list.  On an empty collection it always answers
    200 with the empty list, since no filter callback runs. *)
Theorem list_returns_sublist (s : store) (q : Query.t) :
  ((serve (GET_tasks q) s).1 = internal_error \/
   exists l, l `sublist_of` tasks s /\
     (serve (GET_tasks q) s).1 =
       Response 200 true None (Some (length l)) (TasksData l)) /\
  (tasks s = [] ->
   serve (GET_tasks q) s = (Response 200 true None (Some 0%nat) (TasksData []), s)).
Proof.
  split.
  - unfold serve, handler.
    destruct (get_tasks_outcome q s) as [-> | (l & Hl & ->)]; [by left|].
    right. by exists l.
  - intros Hempty. unfold serve, handler, get_tasks. js_simpl. rewrite Hempty.
    by destruct (truthy (Query.status q)), (truthy (Query.priority q)).
Qed.

Lemma list_returns_sublist_witness :
  serve (GET_tasks (Query.Make JArray JObject)) (Store [] 7) =
    (Response 200 true None (Some 0%nat) (TasksData []), Store [] 7).
Proof.
  apply (list_returns_sublist (Store [] 7) (Query.Make JArray JObject)).
  reflexivity.
Defined.

(** ** What holds in every reachable store *)

Lemma enums_ok_legal t :
  enums_ok t <-> legal_status (status t) /\ legal_priority (priority t).
Proof.
  unfold enums_ok, legal_status, legal_priority.
  rewrite !elem_of_cons, !elem_of_nil. tauto.
Qed.

(** X10.  In every reachable store the tasks stand in strictly increasing
    order of id, every id is at least 1 and below the counter, the counter
    is at least 3, and every status and priority is one of the three legal
    words exactly as written in lower case. *)
Theorem reachable_invariant (s : store) :
  reachable s ->
  StronglySorted Z.lt (id <$> tasks s) /\
  3 <= nextId s /\
  Forall (fun t => 1 <= id t < nextId s /\
                   legal_status (status t) /\ legal_priority (priority t) /\
                   toLowerCase (status t) = status t /\
                   toLowerCase (priority t) = priority t)
         (tasks s).
Proof.
  intros Hs. destruct (reachable_wf s Hs) as (Hsort & Hlt & H3 & Hen).
  destruct (reachable_positive s Hs) as [Hpos _].
  split; [done|]. split; [done|].
  rewrite Forall_forall in Hlt, Hen, Hpos |- *. intros t Ht.
  specialize (Hlt t Ht). specialize (Hpos t Ht).
  destruct (proj1 (enums_ok_legal t) (Hen t Ht)) as [Hst Hpr].
  split_and!; try done; try lia.
  - by destruct Hst as [-> | [-> | ->]].
  - by destruct Hpr as [-> | [-> | ->]].
Qed.

Lemma reachable_invariant_witness :
  StronglySorted Z.lt (id <$> tasks (initial_store [] [] [] [])) /\
  3 <= nextId (initial_store [] [] [] []) /\
  Forall (fun t => 1 <= id t < nextId (initial_store [] [] [] []) /\
                   legal_status (status t) /\ legal_priority (priority t) /\
                   toLowerCase (status t) = status t /\
                   toLowerCase (priority t) = priority t)
         (tasks (initial_store [] [] [] [])).
Proof.
  apply (reachable_invariant (initial_store [] [] [] [])). apply reachable_init.
Defined.

(** ** What a request can do to the collection *)

Lemma serve_PUT_store idp b now s i t :
  findTaskById (tasks s) idp = Some (i, t) ->
  ((serve (PUT_task idp b now) s).2 = s /\
   (code (serve (PUT_task idp b now) s).1 = 400%nat \/
    code (serve (PUT_task idp b now) s).1 = 500%nat)) \/
  (code (serve (PUT_task idp b now) s).1 = 500%nat /\
   exists w, (serve (PUT_task idp b now) s).2 =
               Store (<[i := set_title (trim w) t]> (tasks s)) (nextId s)) \/
  (code (serve (PUT_task idp b now) s).1 = 200%nat /\
   (serve (PUT_task idp b now) s).2 =
     Store (<[i := updated b now t]> (tasks s)) (nextId s)).
Proof.
  intros Hfind. rewrite serve_PUT_task_outcome.
  destruct (put_task idp b now s) as [[res|] s'] eqn:Hout.
  - destruct (put_task_result idp b now s i t _ Hfind Hout)
      as [[msg H] | [[s1 H] | H]]; simplify_eq.
    + left. split; [done | by left].
    + right. right. done.
  - destruct (put_task_throws idp b now s i t s' Hfind Hout)
      as [-> | (c & w & _ & _ & ->)].
    + left. split; [done | by right].
    + right. left. split; [done|]. by exists (c :: w).
Qed.

Lemma serve_PUT_missing idp b now s :
  findTaskById (tasks s) idp = None ->
  serve (PUT_task idp b now) s = (not_found, s).
Proof.
  intros Hfind. rewrite serve_PUT_task_outcome.
  pose proof (put_task_cases idp b now s) as H. rewrite Hfind in H.
  by rewrite H.
Qed.

Lemma apply_field_keeps {A} (proj : task -> A) v norm set t :
  (forall x t0, proj (set x t0) = proj t0) ->
  proj (apply_field v norm set t) = proj t.
Proof. intros Hset. destruct v as [| | | |[|c w]| |]; simpl; auto. Qed.

Lemma updated_identity b now t : identity (updated b now t) = identity t.
Proof.
  unfold identity, updated. cbn [set_updatedAt id createdAt].
  by rewrite !(apply_field_keeps id), !(apply_field_keeps createdAt).
Qed.

Lemma fmap_insert_same {A} (f : task -> A) (l : list task) i t u :
  l !! i = Some t -> f u = f t -> f <$> <[i := u]> l = f <$> l.
Proof.
  intros Hi Hf. rewrite list_fmap_insert, Hf.
  apply list_insert_id. by rewrite list_lookup_fmap, Hi.
Qed.

(** X11.  No request changes the id or the creation time of a task, or
    the order of the collection: the sequence of (id, createdAt) pairs
    after a request is the sequence before it, or that sequence with one
    pair appended whose id is the counter's value (a Create), or that
    sequence with one pair removed (a Delete).  This holds for every
    outcome, the 500 answers included. *)
Theorem requests_keep_identities (r : request) (s : store) :
  identity <$> tasks (serve r s).2 = identity <$> tasks s \/
  (exists c b n1 n2, r = POST_tasks b n1 n2 /\
     identity <$> tasks (serve r s).2 = (identity <$> tasks s) ++ [(nextId s, c)]) \/
  (exists i idp, r = DELETE_task idp /\
     identity <$> tasks (serve r s).2 = delete i (identity <$> tasks s)).
Proof.
  destruct r as [q|idp|b n1 n2|idp b now|idp|].
  - left. by rewrite serve_GET_tasks_store.
  - left. by rewrite serve_GET_task.
  - rewrite serve_POST_tasks_outcome.
    destruct (post_tasks_cases b n1 n2 s) as [msg| | |t Hid Hok]; cbn [snd tasks];
      [by left..|].
    right. left. exists (createdAt t), b, n1, n2. split; [done|].
    rewrite fmap_app. cbn. unfold identity at 2. by rewrite Hid.
  - left. destruct (findTaskById (tasks s) idp) as [[i t]|] eqn:Hfind.
    + pose proof (findTaskById_Some _ _ _ _ Hfind) as (Hi & _ & _).
      destruct (serve_PUT_store idp b now s i t Hfind)
        as [[-> _] | [(_ & w & ->) | [_ ->]]]; [done| |]; cbn [tasks].
      * by apply (fmap_insert_same _ _ _ t).
      * apply (fmap_insert_same _ _ _ t); [done | apply updated_identity].
    + by rewrite serve_PUT_missing.
  - rewrite serve_DELETE_task.
    destruct (findTaskById (tasks s) idp) as [[i t]|]; [|by left].
    right. right. exists i, idp. split; [done|]. cbn [snd tasks].
    apply list_fmap_delete.
  - by left.
Qed.

(** ** Statistics *)

Lemma reported_stats_eq s :
  reported_stats s =
    Some (Stats (length (tasks s))
            (count_where status "pending" (tasks s))
            (count_where status "in-progress" (tasks s))
            (count_where status "completed" (tasks s))
            (PriorityStats
               (count_where priority "high" (tasks s))
               (count_where priority "medium" (tasks s))
               (count_where priority "low" (tasks s)))).
Proof. done. Qed.

Lemma count_where_fmap (f : task -> jsstring) w l :
  count_where f w l = length (filter (fun x => x = lit w) (f <$> l)).
Proof.
  unfold count_where. induction l as [|t l IH]; [done|].
  rewrite fmap_cons, !filter_cons. case_decide; cbn [length]; by rewrite IH.
Qed.

Lemma reported_stats_ext s s' :
  status <$> tasks s' = status <$> tasks s ->
  priority <$> tasks s' = priority <$> tasks s ->
  reported_stats s' = reported_stats s.
Proof.
  intros Hst Hpr. rewrite !reported_stats_eq, !count_where_fmap, Hst, Hpr.
  by rewrite <- (length_fmap status (tasks s')), Hst, length_fmap.
Qed.

Lemma count_where_snoc (f : task -> jsstring) w l t :
  count_where f w (l ++ [t]) =
    (count_where f w l + (if decide (f t = lit w) then 1 else 0))%nat.
Proof.
  unfold count_where. rewrite filter_app, length_app, filter_cons, filter_nil.
  by case_decide.
Qed.

Lemma serve_code_201 r s :
  code (serve r s).1 = 201%nat -> exists b n1 n2, r = POST_tasks b n1 n2.
Proof.
  intros H201. destruct r as [q|idp|b n1 n2|idp b now|idp|]; [exfalso..| |exfalso|exfalso|exfalso].
  - unfold serve, handler in H201.
    destruct (get_tasks_outcome q s) as [H | (l & _ & H)]; by rewrite H in H201.
  - rewrite serve_GET_task in H201.
    by destruct (findTaskById (tasks s) idp) as [[i t]|].
  - eauto.
  - destruct (findTaskById (tasks s) idp) as [[i t]|] eqn:Hfind.
    + destruct (serve_PUT_store idp b now s i t Hfind)
        as [[_ [H | H]] | [(H & _) | [H _]]]; congruence.
    + by rewrite serve_PUT_missing in H201.
  - rewrite serve_DELETE_task in H201.
    by destruct (findTaskById (tasks s) idp) as [[i t]|].
  - done.
Qed.

(** X12.  The statistics follow the requests.  A Create answered 201
    raises [total] and [pending] by one and leaves the other two status
    counts alone; a Delete answered 200 lowers [total] by one; and a
    request answered with any code other than 200 or 201 leaves every
    count as it was, even a PUT answered 500 after overwriting a title. *)
Theorem stats_follow_requests (r : request) (s : store) :
  exists st st',
    reported_stats s = Some st /\
    reported_stats (serve r s).2 = Some st' /\
    (code (serve r s).1 = 201%nat ->
       total st' = S (total st) /\ pending st' = S (pending st) /\
       inProgress st' = inProgress st /\ completed st' = completed st) /\
    (forall idp, r = DELETE_task idp -> code (serve r s).1 = 200%nat ->
       total st = S (total st')) /\
    (code (serve r s).1 <> 200%nat -> code (serve r s).1 <> 201%nat ->
       st' = st).
Proof.
  eexists _, _. split; [apply reported_stats_eq|].
  split; [apply reported_stats_eq|]. split_and!.
  - intros H201. destruct (serve_code_201 r s H201) as (b & n1 & n2 & ->).
    destruct (serve (POST_tasks b n1 n2) s) as [res s'] eqn:Hserve.
    destruct (serve_POST_created s b n1 n2 res s' Hserve H201)
      as (ti & de & _ & _ & _ & _ & _ & _ & ->).
    cbn [snd tasks total pending inProgress completed].
    rewrite length_app, !count_where_snoc. cbn [status length].
    rewrite decide_True by done. rewrite !decide_False by done. lia.
  - intros idp -> H200. rewrite serve_DELETE_task in *.
    destruct (findTaskById (tasks s) idp) as [[i t]|] eqn:Hfind; [|done].
    apply findTaskById_Some in Hfind as (Hi & _ & _).
    cbn [snd tasks total]. rewrite length_delete by (by rewrite Hi).
    apply lookup_lt_Some in Hi. lia.
  - intros H200 H201.
    assert (Hsame : reported_stats (serve r s).2 = reported_stats s);
      [|rewrite !reported_stats_eq in Hsame; by injection Hsame as -> -> -> -> -> -> ->].
    destruct r as [q|idp|b n1 n2|idp b now|idp|].
    + by rewrite serve_GET_tasks_store.
    + by rewrite serve_GET_task.
    + rewrite serve_POST_tasks_outcome in *.
      by destruct (post_tasks_cases b n1 n2 s) as [msg| | |t Hid Hok].
    + destruct (findTaskById (tasks s) idp) as [[i t]|] eqn:Hfind.
      * pose proof (findTaskById_Some _ _ _ _ Hfind) as (Hi & _ & _).
        destruct (serve_PUT_store idp b now s i t Hfind)
          as [[-> _] | [(_ & w & ->) | [H _]]]; [done| |done].
        apply reported_stats_ext; cbn [tasks]; by apply (fmap_insert_same _ _ _ t).
      * by rewrite serve_PUT_missing.
    + rewrite serve_DELETE_task in *.
      by destruct (findTaskById (tasks s) idp) as [[i t]|].
    + done.
Qed.

Lemma stats_follow_requests_witness :
  exists st st',
    reported_stats (initial_store [] [] [] []) = Some st /\
    reported_stats (serve (DELETE_task (lit "1")) (initial_store [] [] [] [])).2
      = Some st' /\
    total st = S (total st').
Proof.
  destruct (stats_follow_requests (DELETE_task (lit "1")) (initial_store [] [] [] []))
    as (st & st' & H1 & H2 & _ & Hdel & _).
  exists st, st'. split; [exact H1|]. split; [exact H2|].
  apply (Hdel (lit "1")); reflexivity.
Defined.

(** ** After a Delete *)

(** X13.  In a reachable store, once DELETE has answered 200 for an
    identifier, every later PUT and every later DELETE of that id, after
    whatever requests, answers 404 "Task not found" and changes nothing:
    a deleted id never comes back. *)
Theorem deleted_id_stays_unknown (s : store) (idp : jsstring) :
  reachable s -> code (serve (DELETE_task idp) s).1 = 200%nat ->
  forall rs idp' b now,
    parseInt idp' = parseInt idp ->
    serve (PUT_task idp' b now) (run rs (serve (DELETE_task idp) s).2).2 =
      (not_found, (run rs (serve (DELETE_task idp) s).2).2) /\
    serve (DELETE_task idp') (run rs (serve (DELETE_task idp) s).2).2 =
      (not_found, (run rs (serve (DELETE_task idp) s).2).2).
Proof.
  intros Hs H200 rs idp' b now Hp. apply reachable_wf in Hs.
  pose proof (wf_NoDup s Hs) as Hnd.
  rewrite serve_DELETE_task in *.
  destruct (findTaskById (tasks s) idp) as [[i t]|] eqn:Hfind; [|done].
  apply findTaskById_Some in Hfind as (Hi & Hparse & _). cbn [snd].
  assert (Hgone : gone (id t) (Store (delete i (tasks s)) (nextId s))).
  { split; cbn [tasks nextId].
    - destruct Hs as (_ & Hlt & _). rewrite Forall_forall in Hlt.
      apply Hlt. by eapply list_elem_of_lookup_2.
    - rewrite (delete_as_filter _ _ _ Hnd Hi).
      intros (t' & Heq & Hin)%list_elem_of_fmap.
      apply list_elem_of_filter in Hin as [Hne _]. congruence. }
  apply (run_gone _ rs) in Hgone. destruct Hgone as [_ Hnot].
  assert (Hnone : findTaskById (tasks (run rs (Store (delete i (tasks s)) (nextId s))).2)
                    idp' = None).
  { apply findTaskById_None. intros t' Ht' Heq. apply Hnot.
    rewrite Hp, Hparse in Heq. injection Heq as ->.
    by apply list_elem_of_fmap_2. }
  split.
  - by apply serve_PUT_missing.
  - by rewrite serve_DELETE_task, Hnone.
Qed.

Lemma deleted_id_stays_unknown_witness :
  serve (PUT_task (lit "1") (Body.Make (JStr (lit "again")) JUndefined JUndefined JUndefined) [])
        (run [POST_tasks (Body.Make (JStr (lit "A")) (JStr (lit "B")) JUndefined JUndefined) [] []]
             (serve (DELETE_task (lit "1")) (initial_store [] [] [] [])).2).2 =
    (not_found,
     (run [POST_tasks (Body.Make (JStr (lit "A")) (JStr (lit "B")) JUndefined JUndefined) [] []]
          (serve (DELETE_task (lit "1")) (initial_store [] [] [] [])).2).2) /\
  serve (DELETE_task (lit "1"))
        (run [POST_tasks (Body.Make (JStr (lit "A")) (JStr (lit "B")) JUndefined JUndefined) [] []]
             (serve (DELETE_task (lit "1")) (initial_store [] [] [] [])).2).2 =
    (not_found,
     (run [POST_tasks (Body.Make (JStr (lit "A")) (JStr (lit "B")) JUndefined JUndefined) [] []]
          (serve (DELETE_task (lit "1")) (initial_store [] [] [] [])).2).2).
Proof.
  apply (deleted_id_stays_unknown (initial_store [] [] [] []) (lit "1")).
  - apply reachable_init.
  - reflexivity.
  - reflexivity.
Defined.

(** ** The shape of every answer *)

Lemma serve_response_shape r s :
  (code (serve r s).1 = 200%nat \/ code (serve r s).1 = 201%nat \/
   code (serve r s).1 = 400%nat \/ code (serve r s).1 = 404%nat \/
   code (serve r s).1 = 500%nat) /\
  (success (serve r s).1 = true <->
   code (serve r s).1 = 200%nat \/ code (serve r s).1 = 201%nat) /\
  (success (serve r s).1 = false ->
   data (serve r s).1 = NoData /\ count (serve r s).1 = None /\
   is_Some (message (serve r s).1)).
Proof.
  assert (Hshape : forall res,
    res = not_found \/ (exists msg, res = bad_request msg) \/ res = internal_error \/
    (exists m c d, res = Response 200 true m c d) \/
    (exists m c d, res = Response 201 true m c d) ->
    (code res = 200%nat \/ code res = 201%nat \/ code res = 400%nat \/
     code res = 404%nat \/ code res = 500%nat) /\
    (success res = true <-> code res = 200%nat \/ code res = 201%nat) /\
    (success res = false ->
     data res = NoData /\ count res = None /\ is_Some (message res))).
  { intros res [-> | [[msg ->] | [-> | [(m & c & d & ->) | (m & c & d & ->)]]]];
      cbn; split_and!; try tauto; try done; try (split; [done|]; intros [|]; done);
      try (intros _; split_and!; eauto). }
  apply Hshape. destruct r as [q|idp|b n1 n2|idp b now|idp|].
  - unfold serve, handler.
    destruct (get_tasks_outcome q s) as [-> | (l & _ & ->)]; cbn; eauto 10.
  - rewrite serve_GET_task.
    destruct (findTaskById (tasks s) idp) as [[i t]|]; cbn; eauto 10.
  - rewrite serve_POST_tasks_outcome.
    destruct (post_tasks_cases b n1 n2 s) as [msg| | |t Hid Hok]; cbn; eauto 10.
  - rewrite serve_PUT_task_outcome.
    pose proof (put_task_cases idp b now s) as Hcases.
    destruct (findTaskById (tasks s) idp) as [[i t]|].
    + destruct Hcases; cbn; eauto 10.
    + rewrite Hcases. cbn. eauto.
  - rewrite serve_DELETE_task.
    destruct (findTaskById (tasks s) idp) as [[i t]|]; cbn; eauto 10.
  - cbn. eauto 10.
Qed.

(** X14.  Every answer of the application, on any route, carries one of
    the codes 200, 201, 400, 404, 500; its [success] flag is true exactly
    for 200 and 201; an answer with [success] false has a message and
    neither data nor count; only the health check sets [timestamp]; and
    the health check and the catch-all never touch the store. *)
Theorem response_shape (e : endpoint) (s : store) :
  (code (reply_body (express e s).1) = 200%nat \/
   code (reply_body (express e s).1) = 201%nat \/
   code (reply_body (express e s).1) = 400%nat \/
   code (reply_body (express e s).1) = 404%nat \/
   code (reply_body (express e s).1) = 500%nat) /\
  (success (reply_body (express e s).1) = true <->
   code (reply_body (express e s).1) = 200%nat \/
   code (reply_body (express e s).1) = 201%nat) /\
  (success (reply_body (express e s).1) = false ->
   data (reply_body (express e s).1) = NoData /\
   count (reply_body (express e s).1) = None /\
   is_Some (message (reply_body (express e s).1))) /\
  (is_Some (reply_timestamp (express e s).1) <-> exists now, e = Health now) /\
  ((forall r, e <> Api r) -> (express e s).2 = s).
Proof.
  destruct e as [r|now|]; cbn [express].
  - pose proof (serve_response_shape r s) as (Hc & Hs & Hf).
    destruct (serve r s) as [res s']; cbn [fst snd reply_body reply_timestamp] in *.
    split_and!.
    + exact Hc.
    + exact Hs.
    + exact Hf.
    + split; [by intros [? ?] | by intros [? ?]].
    + intros H. by destruct (H r).
  - cbn. split_and!.
    + by left.
    + split; [by left | done].
    + done.
    + split; [intros _; by eexists | intros _; by eexists].
    + done.
  - cbn. split_and!.
    + do 3 right. by left.
    + split; [done | intros [|]; done].
    + intros _. split_and!; [done | done | by eexists].
    + split; [by intros [? ?] | by intros [? ?]].
    + done.
Qed.

Lemma response_shape_witness :
  (express NoRoute (initial_store [] [] [] [])).2 = initial_store [] [] [] [].
Proof.
  apply (response_shape NoRoute (initial_store [] [] [] [])). discriminate.
Defined.

(** ** Update, once more *)

Lemma put_task_accepts idp b now s i t res s' :
  findTaskById (tasks s) idp = Some (i, t) ->
  put_task idp b now s = (Normal res, s') -> code res = 200%nat ->
  falsy_or_text (Body.title b) /\ falsy_or_text (Body.description b) /\
  falsy_or_legal (Body.status b) ["pending"; "in-progress"; "completed"]%string /\
  falsy_or_legal (Body.priority b) ["low"; "medium"; "high"]%string.
Proof.
  intros Hfind Hout Hcode. unfold put_task in Hout. destruct b as [ti de st pr].
  cbn [Body.title Body.description Body.status Body.priority] in *.
  js_simpl. rewrite Hfind in Hout.
  field_cases_in st Hout; [| |discriminate];
    [| destruct (includes [lit "pending"; _; _] _) eqn:Hst; cbn [negb] in Hout;
       [|by simplify_eq/=] ];
    (field_cases_in pr Hout; [| |discriminate];
     [| destruct (includes [lit "low"; _; _] _) eqn:Hpr; cbn [negb] in Hout;
        [|by simplify_eq/=] ]).
  all: field_cases_in ti Hout; [| |discriminate].
  all: field_cases_in de Hout; [| |discriminate].
  all: clear Hout; unfold falsy_or_text, falsy_or_legal; split_and!;
       first [ by left | right; eexists; split; [reflexivity|];
               first [by apply ci_member_status | by apply ci_member_priority]
             | right; by eexists ].
Qed.

(** X15.  PUT is idempotent: when a PUT is answered 200, sending the same
    request again (with the same clock reading) is answered with the same
    record and leaves the store as the first one left it. *)
Theorem update_idempotent (s : store) (idp : jsstring) (b : Body.t)
    (now : timestamp) (res : response) (s' : store) :
  serve (PUT_task idp b now) s = (res, s') -> code res = 200%nat ->
  serve (PUT_task idp b now) s' = (res, s').
Proof.
  intros Hput Hcode.
  destruct (findTaskById (tasks s) idp) as [[i t]|] eqn:Hfind;
    [|rewrite (serve_PUT_missing _ _ _ _ Hfind) in Hput; by simplify_eq].
  rewrite serve_PUT_task_outcome in Hput.
  destruct (put_task idp b now s) as [[res0|] s0] eqn:Hout;
    injection Hput as <- <-; [|done].
  destruct (put_task_accepts _ _ _ _ _ _ _ _ Hfind Hout Hcode)
    as (Hti & Hde & Hst & Hpr).
  destruct (put_task_result idp b now s i t _ Hfind Hout)
    as [[msg H] | [[s1 H] | H]]; simplify_eq; try done.
  pose proof (findTaskById_insert (tasks s) idp idp i t (updated b now t)
                Hfind (updated_id b now t) eq_refl) as Hfind'.
  rewrite (serve_PUT_updates _ idp b now i (updated b now t)); [|done..].
  cbn [tasks nextId]. rewrite updated_twice, list_insert_insert_eq. done.
Qed.

Lemma update_idempotent_witness :
  serve (PUT_task (lit "2") (Body.Make (JStr (lit " x ")) JUndefined (JStr (lit "COMPLETED")) JUndefined)
           (lit "now"))
        (serve (PUT_task (lit "2") (Body.Make (JStr (lit " x ")) JUndefined (JStr (lit "COMPLETED")) JUndefined)
                  (lit "now")) (initial_store [] [] [] [])).2 =
  serve (PUT_task (lit "2") (Body.Make (JStr (lit " x ")) JUndefined (JStr (lit "COMPLETED")) JUndefined)
           (lit "now")) (initial_store [] [] [] []).
Proof.
  apply (update_idempotent (initial_store [] [] [] []) (lit "2")
           (Body.Make (JStr (lit " x ")) JUndefined (JStr (lit "COMPLETED")) JUndefined)
           (lit "now")).
  - reflexivity.
  - reflexivity.
Defined.

(** X16.  The lookup comes first: a PUT or DELETE whose identifier names
    no task is answered 404 "Task not found" and changes nothing, whatever
    the body holds; the body is not validated and nothing in it can make
    the handler throw. *)
Theorem unknown_id_is_not_found (s : store) (idp : jsstring) :
  (forall t, t ∈ tasks s -> parseInt idp <> Some (id t)) ->
  (forall b now, serve (PUT_task idp b now) s = (not_found, s)) /\
  serve (DELETE_task idp) s = (not_found, s).
Proof.
  intros Hnone%findTaskById_None. split.
  - intros b now. by apply serve_PUT_missing.
  - by rewrite serve_DELETE_task, Hnone.
Qed.

Lemma unknown_id_is_not_found_witness :
  (forall b now, serve (PUT_task (lit "abc") b now) (initial_store [] [] [] [])
                 = (not_found, initial_store [] [] [] [])) /\
  serve (DELETE_task (lit "abc")) (initial_store [] [] [] [])
    = (not_found, initial_store [] [] [] []).
Proof.
  apply (unknown_id_is_not_found (initial_store [] [] [] []) (lit "abc")).
  intros t _. discriminate.
Defined.

(** ** Stored text *)

Lemma trim_trimmed w : trimmed (trim w).
Proof. by destruct (trim_is_trim_of w). Qed.

Lemma chosen_trimmed v old : trimmed old -> trimmed (chosen v trim old).
Proof.
  intros Hold. destruct v as [| | | |[|c w]| |]; try done. apply trim_trimmed.
Qed.

(** X17.  In every reachable store no title and no description begins or
    ends with white space (either may be empty). *)
Theorem stored_text_is_trimmed (s : store) :
  reachable s ->
  Forall (fun t => trimmed (title t) /\ trimmed (description t)) (tasks s).
Proof.
  induction 1 as [c1 u1 c2 u2|r s Hs IH].
  - cbn. repeat constructor; cbn; by intros c [= <-].
  - destruct r as [q|idp|b n1 n2|idp b now|idp|].
    + by rewrite serve_GET_tasks_store.
    + by rewrite serve_GET_task.
    + destruct (serve (POST_tasks b n1 n2) s) as [res s'] eqn:Hserve.
      destruct (decide (code res = 201%nat)) as [H201|Hne].
      * destruct (serve_POST_created s b n1 n2 res s' Hserve H201)
          as (ti & de & _ & _ & _ & _ & _ & _ & ->).
        cbn [snd tasks]. apply Forall_app. split; [done|].
        apply Forall_singleton. cbn. split; apply trim_trimmed.
      * rewrite serve_POST_tasks_outcome in Hserve.
        destruct (post_tasks_cases b n1 n2 s) as [msg| | |t Hid Hok];
          simplify_eq; done.
    + destruct (findTaskById (tasks s) idp) as [[i t]|] eqn:Hfind.
      * pose proof (findTaskById_Some _ _ _ _ Hfind) as (Hi & _ & _).
        assert (Ht : trimmed (title t) /\ trimmed (description t)).
        { rewrite Forall_forall in IH. apply IH. by eapply list_elem_of_lookup_2. }
        destruct (serve_PUT_store idp b now s i t Hfind)
          as [[-> _] | [(_ & w & ->) | [_ ->]]]; [done| |]; cbn [tasks];
          apply Forall_insert; try done.
        -- cbn. split; [apply trim_trimmed | apply Ht].
        -- rewrite updated_eq. cbn. split; apply chosen_trimmed; apply Ht.
      * by rewrite serve_PUT_missing.
    + rewrite serve_DELETE_task.
      destruct (findTaskById (tasks s) idp) as [[i t]|]; [|done].
      cbn [snd tasks]. by apply Forall_delete.
    + done.
Qed.

Lemma stored_text_is_trimmed_witness :
  Forall (fun t => trimmed (title t) /\ trimmed (description t))
         (tasks (initial_store [] [] [] [])).
Proof.
  apply (stored_text_is_trimmed (initial_store [] [] [] [])). apply reachable_init.
Defined.
